(** * Presence registry and direct-message pipeline of the socket server

    A shallow embedding of [backend/src/lib/socket.js]: the module-level
    [userSockets] map, the authentication middleware installed with [io.use],
    and the three handlers installed by [io.on("connection")] (the connection
    handler itself, [sendMessage] and [disconnect]).

    JavaScript values are modelled as far as the handlers inspect them, the
    [Map] as an insertion-ordered association list, and the handlers as
    computations in a state-and-exception monad over the server's world
    (registry, attached sockets, database, log of observable effects). *)

From Stdlib Require Import List String Ascii NArith ZArith Bool Lia.
Import ListNotations.

Set Implicit Arguments.

(** ** JavaScript strings and values *)

Module Js.

(** A string is a sequence of UTF-16 code units. *)
Definition codeunit := N.
Definition jsstring := list codeunit.

(** String literals of the source are ASCII. *)
Definition lit (s : string) : jsstring :=
  map N_of_ascii (list_ascii_of_string s).

Fixpoint str_eqb (a b : jsstring) : bool :=
  match a, b with
  | [], [] => true
  | x :: a', y :: b' => N.eqb x y && str_eqb a' b'
  | _, _ => false
  end.

(** [WhiteSpace] and [LineTerminator] code points of ECMAScript, the ones
    [String.prototype.trim] strips: TAB, LF, VT, FF, CR, SP, NBSP, U+1680,
    U+2000..U+200A, LS, PS, U+202F, U+205F, U+3000 and the BOM. *)
Definition is_white_space (c : codeunit) : bool :=
  ((9 <=? c) && (c <=? 13) || (c =? 32) || (c =? 160) || (c =? 5760)
   || (8192 <=? c) && (c <=? 8202)
   || (c =? 8232) || (c =? 8233) || (c =? 8239) || (c =? 8287)
   || (c =? 12288) || (c =? 65279))%N.

Fixpoint trimStart (s : jsstring) : jsstring :=
  match s with
  | c :: s' => if is_white_space c then trimStart s' else s
  | [] => []
  end.

Definition trimEnd (s : jsstring) : jsstring := rev (trimStart (rev s)).

(** [String.prototype.trim] *)
Definition trim (s : jsstring) : jsstring := trimEnd (trimStart s).

(** The values a socket.io payload can carry, as far as the handlers look
    at them.  Numbers are kept integral; the handlers only test them for
    truthiness. *)
#[warnings="-register-all"]
Inductive jsval : Type :=
| JUndefined
| JNull
| JBool (b : bool)
| JNumber (n : Z)
| JString (s : jsstring)
| JObject (fields : list (string * jsval)).

(** [ToBoolean] *)
Definition truthy (v : jsval) : bool :=
  match v with
  | JUndefined | JNull => false
  | JBool b => b
  | JNumber n => negb (n =? 0)%Z
  | JString s => match s with [] => false | _ => true end
  | JObject _ => true
  end.

Fixpoint own_property (fields : list (string * jsval)) (k : string) : jsval :=
  match fields with
  | [] => JUndefined
  | (k', v) :: rest => if String.eqb k' k then v else own_property rest k
  end.

(** Errors thrown by the handlers: constructed with [new Error(msg)], by the
    engine (a [TypeError]), or by a database call.  Only [error.message] is
    ever read. *)
Record error := Error { message : jsstring }.

(** ** The [Map] object

    Entries are kept in insertion order, which is the order [keys()]
    enumerates them in. *)
Section MapObject.
Variable V : Type.

Definition map := list (jsstring * V).

(** [Map.prototype.get]: the value of the entry with that key. *)
Fixpoint map_get (m : map) (k : jsstring) : option V :=
  match m with
  | [] => None
  | (k', v) :: m' => if str_eqb k' k then Some v else map_get m' k
  end.

(** [Map.prototype.set]: an existing entry keeps its position and gets the
    new value, otherwise the entry is appended. *)
Fixpoint map_set (m : map) (k : jsstring) (v : V) : map :=
  match m with
  | [] => [(k, v)]
  | (k', v') :: m' =>
      if str_eqb k' k then (k', v) :: m' else (k', v') :: map_set m' k v
  end.

(** [Map.prototype.delete]: the entry with that key is removed. *)
Fixpoint map_delete (m : map) (k : jsstring) : map :=
  match m with
  | [] => []
  | (k', v') :: m' =>
      if str_eqb k' k then m' else (k', v') :: map_delete m' k
  end.

(** [Array.from(m.keys())] *)
Definition map_keys (m : map) : list jsstring := List.map fst m.

(** Number of entries stored under a key. *)
Definition entries_for (m : map) (k : jsstring) : nat :=
  List.length (filter (fun e => str_eqb (fst e) k) m).
End MapObject.

End Js.

Import Js.

(** ** Documents and collections

    The mongoose models [User], [FriendRequest], [Message] and
    [Notification] (imported from [../models/]) are not among the sources.
    They are taken as the spec describes the collaborators: resolve a user
    record from an external identifier, answer whether an accepted
    friendship record exists, durably append a message or notification
    record.  Documents carry the fields the handlers read or write. *)

Module User.
(** Modelled from the spec: the user model is missing; the minimal user
    record, external identity and display name, which is also what
    [select('clerkId fullName')] keeps. *)
Record t := mk { clerkId : jsstring; fullName : jsstring }.
End User.

Module FriendRequest.
(** Modelled from the spec: the friend-request model is missing; a
    friendship record names a sender, a receiver and a status. *)
Record t := mk { senderId : jsstring; receiverId : jsstring; status : jsstring }.
End FriendRequest.

Module Message.
(** Modelled from the spec: the message model is missing; sender identity,
    receiver identity and text, plus the [_id] the handler reads back. *)
Record t := mk { _id : N; senderId : jsstring; receiverId : jsval; content : jsstring }.
End Message.

Module Notification.
(** Modelled from the spec: the notification model is missing; the fields
    are the ones of [messagePayload.notification]. *)
Record t := mk { userId : jsval; message : jsstring; type : jsstring; messageId : N }.
End Notification.

(** Modelled from the spec: the document store behind the four missing
    models, one collection each. *)
Record database := Database {
  users : list User.t;
  friendRequests : list FriendRequest.t;
  messages : list Message.t;
  notifications : list Notification.t;
  next_id : N  (* the identifier the next created message receives *)
}.

(** A socket that passed the middleware: its id and the [socket.user] the
    middleware stored on it. *)
Record Socket := { id : jsstring; user : User.t }.

(** ** Observable effects *)

Inductive payload : Type :=
| StatusUpdate (userId : jsstring) (action : string) (onlineUsers : list jsstring)
| MessageUpdate (message : Message.t) (notification : option Notification.t)
| MessageError (message : jsstring).

Inductive db_call : Type :=
| CallUserFindOne (clerkId : jsval)
| CallFriendRequestFindOne (userId : jsstring) (receiverId : jsval)
| CallMessageCreate (senderId : jsstring) (receiverId : jsval) (content : jsstring)
| CallNotificationCreate (n : Notification.t).

Inductive effect : Type :=
| Db (c : db_call)                                         (* a database call was issued *)
| Next (err : option error)                                (* next() / next(err) *)
| IoEmit (event : string) (p : payload)                    (* io.emit: every connection *)
| IoToEmit (room : jsstring) (event : string) (p : payload)     (* io.to(room).emit *)
| SocketEmit (socketId : jsstring) (event : string) (p : payload). (* socket.emit *)

Definition is_emit (e : effect) : bool :=
  match e with
  | IoEmit _ _ | IoToEmit _ _ _ | SocketEmit _ _ _ => true
  | Db _ | Next _ => false
  end.

Definition is_db (e : effect) : bool :=
  match e with Db _ => true | _ => false end.

(** ** The server's world *)

Record world := World {
  userSockets : map jsstring;   (* const userSockets = new Map() *)
  listening : list Socket;      (* sockets with sendMessage/disconnect handlers installed *)
  db : database;
  trace : list effect           (* effects so far, oldest first *)
}.

(** ** Handlers as computations: state plus exceptions.  State changes made
    before a [throw] stay, as in JavaScript. *)

Inductive completion (A : Type) : Type :=
| Normal (a : A)
| Throw (e : error).
Arguments Normal {A} a.
Arguments Throw {A} e.

Definition M (A : Type) : Type := world -> completion A * world.

Definition ret {A} (a : A) : M A := fun w => (Normal a, w).

Definition bind {A B} (c : M A) (k : A -> M B) : M B :=
  fun w =>
    match c w with
    | (Normal a, w') => k a w'
    | (Throw e, w') => (Throw e, w')
    end.

Definition throw {A} (e : error) : M A := fun w => (Throw e, w).

(** [try { body } catch (error) { handler }] *)
Definition try_catch {A} (body : M A) (handler : error -> M A) : M A :=
  fun w =>
    match body w with
    | (Normal a, w') => (Normal a, w')
    | (Throw e, w') => handler e w'
    end.

Declare Scope js_scope.
Delimit Scope js_scope with js.
Notation "x <- c ;; k" := (bind c (fun x => k))
  (at level 100, c at next level, right associativity) : js_scope.
Notation "c ;; k" := (bind c (fun _ => k))
  (at level 100, right associativity) : js_scope.
Open Scope js_scope.

Definition exec {A} (c : M A) (w : world) : world := snd (c w).

Definition log (e : effect) : M unit :=
  fun w => (Normal tt, World (userSockets w) (listening w) (db w) (trace w ++ [e])).

Definition set_db (d : database) : M unit :=
  fun w => (Normal tt, World (userSockets w) (listening w) d (trace w)).

Definition set_userSockets (m : map jsstring) : M unit :=
  fun w => (Normal tt, World m (listening w) (db w) (trace w)).

Definition set_listening (l : list Socket) : M unit :=
  fun w => (Normal tt, World (userSockets w) l (db w) (trace w)).

Definition get_world : M world := fun w => (Normal w, w).

(** ** Database calls

    Every call is awaited; the environment decides whether it faults
    (storage unavailable, schema validation, ...): [Some msg] makes the call
    throw an error with that message and leaves the collection as it was. *)

Definition await_db {A} (c : db_call) (fault : option jsstring)
    (run : database -> A * database) : M A :=
  log (Db c) ;;
  match fault with
  | Some msg => throw (Error msg)
  | None =>
      w <- get_world ;;
      let (a, d) := run (db w) in
      set_db d ;; ret a
  end.

(** A stored string field equals a query value. *)
Definition field_is (stored : jsstring) (v : jsval) : bool :=
  match v with
  | JString s => str_eqb stored s
  | _ => false
  end.

(** Modelled from the spec: the user model is missing.
    [User.findOne({ clerkId: userId }).select('clerkId fullName')] resolves
    the first user record whose identity is the given string; a value that
    is not a string resolves nothing (casts and query operators of the
    store are not modelled). *)
Definition User_findOne (fault : option jsstring) (userId : jsval) : M (option User.t) :=
  await_db (CallUserFindOne userId) fault
    (fun d => (find (fun u => field_is (User.clerkId u) userId) (users d), d)).

(** The filter of the friendship query:
    [{ $or: [ { senderId: userId, receiverId },
              { senderId: receiverId, receiverId: userId } ],
       status: "accepted" }] *)
Definition friendship_filter (userId : jsstring) (receiverId : jsval)
    (r : FriendRequest.t) : bool :=
  ((str_eqb (FriendRequest.senderId r) userId
      && field_is (FriendRequest.receiverId r) receiverId)
   || (field_is (FriendRequest.senderId r) receiverId
      && str_eqb (FriendRequest.receiverId r) userId))
  && str_eqb (FriendRequest.status r) (lit "accepted").

(** Modelled from the spec: the friend-request model is missing.
    [FriendRequest.findOne(filter)] answers with the first record the
    filter accepts. *)
Definition FriendRequest_findOne (fault : option jsstring)
    (userId : jsstring) (receiverId : jsval) : M (option FriendRequest.t) :=
  await_db (CallFriendRequestFindOne userId receiverId) fault
    (fun d => (find (friendship_filter userId receiverId) (friendRequests d), d)).

(** Modelled from the spec: the message model is missing.
    [Message.create({ senderId, receiverId, content })] appends the document
    and returns it, with a fresh [_id]. *)
Definition Message_create (fault : option jsstring)
    (senderId : jsstring) (receiverId : jsval) (content : jsstring) : M Message.t :=
  await_db (CallMessageCreate senderId receiverId content) fault
    (fun d =>
       let m := Message.mk (next_id d) senderId receiverId content in
       (m, Database (users d) (friendRequests d) (messages d ++ [m])
             (notifications d) (N.succ (next_id d)))).

(** Modelled from the spec: the notification model is missing.
    [Notification.create(fields)] appends the record. *)
Definition Notification_create (fault : option jsstring) (n : Notification.t) : M unit :=
  await_db (CallNotificationCreate n) fault
    (fun d =>
       (tt, Database (users d) (friendRequests d) (messages d)
              (notifications d ++ [n]) (next_id d))).

(** What the environment decides for the three calls of one [sendMessage]. *)
Record faults := Faults {
  friendRequest_fault : option jsstring;
  message_fault : option jsstring;
  notification_fault : option jsstring
}.

Definition no_faults : faults := Faults None None None.

(** ** Pieces of JavaScript the handlers use *)

(** [const { k } = data]: reading a property of [undefined] or [null]
    throws a [TypeError]; a primitive has no such property. *)
Definition destructure (data : jsval) (k : string) : completion jsval :=
  match data with
  | JUndefined =>
      Throw (Error (lit ("Cannot destructure property '" ++ k
                         ++ "' of 'data' as it is undefined.")))
  | JNull =>
      Throw (Error (lit ("Cannot destructure property '" ++ k
                         ++ "' of 'data' as it is null.")))
  | JObject fields => Normal (own_property fields k)
  | JBool _ | JNumber _ | JString _ => Normal JUndefined
  end.

(** [content?.trim()]: [undefined] (here [None]) for a nullish [content],
    the trimmed string for a string, a [TypeError] for anything else (no
    other payload value has a callable [trim]). *)
Definition optional_trim (content : jsval) : completion (option jsstring) :=
  match content with
  | JUndefined | JNull => Normal None
  | JString s => Normal (Some (trim s))
  | JBool _ | JNumber _ | JObject _ =>
      Throw (Error (lit "content?.trim is not a function"))
  end.

(** An expression evaluated inside a handler. *)
Definition eval {A} (c : completion A) : M A := fun w => (c, w).

(** [a || b] on strings *)
Definition or_else (a b : jsstring) : jsstring :=
  match a with [] => b | _ :: _ => a end.

(** [userSockets.get(receiverId)]: the keys are strings, so only a string
    finds an entry. *)
Definition userSockets_get (key : jsval) : M (option jsstring) :=
  w <- get_world ;;
  match key with
  | JString k => ret (map_get (userSockets w) k)
  | _ => ret None
  end.

Definition userSockets_set (k v : jsstring) : M unit :=
  w <- get_world ;; set_userSockets (map_set (userSockets w) k v).

Definition userSockets_delete (k : jsstring) : M unit :=
  w <- get_world ;; set_userSockets (map_delete (userSockets w) k).

Definition userSockets_keys : M (list jsstring) :=
  w <- get_world ;; ret (map_keys (userSockets w)).

(** [socket.on("sendMessage", ...)] and [socket.on("disconnect", ...)] *)
Definition install_handlers (socket : Socket) : M unit :=
  w <- get_world ;; set_listening (socket :: listening w).

Definition remove_handlers (socketId : jsstring) : M unit :=
  w <- get_world ;;
  set_listening (filter (fun s => negb (str_eqb (id s) socketId)) (listening w)).

(** ** The middleware and the handlers of [initializeSocket] *)

(** [io.use(async (socket, next) => ...)].  The result is the [socket.user]
    stored when [next()] was called without an error, [None] when [next]
    received an error. *)
Definition auth_middleware (userId : jsval) (fault : option jsstring) : M (option User.t) :=
  if negb (truthy userId) then
    log (Next (Some (Error (lit "Authentication error: No user ID provided")))) ;;
    ret None
  else
    try_catch
      (user <- User_findOne fault userId ;;
       match user with
       | None =>
           log (Next (Some (Error (lit "Authentication error: User not found")))) ;;
           ret None
       | Some u =>
           log (Next None) ;;
           ret (Some u)
       end)
      (fun error =>
         log (Next (Some (Error (lit "Authentication failed: " ++ message error)))) ;;
         ret None).

(** [socket.on("sendMessage", async (data) => { try ... catch ... })].
    [userId] is the [socket.user.clerkId] captured by the connection
    handler.  Here the handler runs in one piece, no other event being
    handled while one of its three [await]s is pending;
    [on_sendMessage_async] below is the handler with its awaits, and
    coincides with this one when nothing happens during them. *)
Definition on_sendMessage (socket : Socket) (f : faults) (data : jsval) : M unit :=
  let userId := User.clerkId (user socket) in
  try_catch
    (receiverId <- eval (destructure data "receiverId") ;;
     content <- eval (destructure data "content") ;;
     trimmedContent <- eval (optional_trim content) ;;
     match trimmedContent with
     | None | Some [] =>   (* !trimmedContent: undefined or the empty string *)
         throw (Error (lit "Message cannot be empty"))
     | Some (c :: cs) =>
         let trimmedContent := c :: cs in
         friendshipStatus <- FriendRequest_findOne (friendRequest_fault f) userId receiverId ;;
         match friendshipStatus with
         | None =>
             throw (Error (lit
               "You can only message users who have accepted your friend request"))
         | Some _ =>
             message <- Message_create (message_fault f) userId receiverId trimmedContent ;;
             let notification :=
               Notification.mk receiverId
                 (lit "New message from " ++ User.fullName (user socket))
                 (lit "message")
                 (Message._id message) in
             Notification_create (notification_fault f) notification ;;
             receiverSocketId <- userSockets_get receiverId ;;
             match receiverSocketId with
             | Some (h :: hs) =>
                 log (IoToEmit (h :: hs) "messageUpdate"
                        (MessageUpdate message (Some notification)))
             | Some [] | None => ret tt
             end ;;
             log (SocketEmit (id socket) "messageUpdate" (MessageUpdate message None))
         end
     end)
    (fun error =>
       log (SocketEmit (id socket) "messageError"
              (MessageError (or_else (message error) (lit "Failed to send message"))))).

(** [socket.on("disconnect", () => ...)] *)
Definition on_disconnect (socket : Socket) : M unit :=
  let userId := User.clerkId (user socket) in
  userSockets_delete userId ;;
  onlineUsers <- userSockets_keys ;;
  log (IoEmit "user_status_update" (StatusUpdate userId "disconnected" onlineUsers)).

(** [io.on("connection", (socket) => ...)] *)
Definition on_connection (socket : Socket) : M unit :=
  let userId := User.clerkId (user socket) in
  userSockets_set userId (id socket) ;;
  onlineUsers <- userSockets_keys ;;
  log (IoEmit "user_status_update" (StatusUpdate userId "connected" onlineUsers)) ;;
  install_handlers socket.

(** ** Dispatch

    What socket.io does with the callbacks: a handshake runs the middleware
    and fires ["connection"] only when [next] got no error; an event of a
    client reaches the handler installed on that client's socket; the
    database is shared with the HTTP API, which changes it between socket
    events. *)

Inductive event : Type :=
| Handshake (socketId : jsstring) (auth_userId : jsval) (fault : option jsstring)
| ClientSendMessage (socketId : jsstring) (data : jsval) (f : faults)
| ClientDisconnect (socketId : jsstring)
| HttpApiWrite (d : database).

Definition socket_of (w : world) (socketId : jsstring) : option Socket :=
  find (fun s => str_eqb (id s) socketId) (listening w).

Definition dispatch (ev : event) : M unit :=
  match ev with
  | Handshake socketId auth_userId fault =>
      u <- auth_middleware auth_userId fault ;;
      match u with
      | Some u => on_connection {| id := socketId; user := u |}
      | None => ret tt
      end
  | ClientSendMessage socketId data f =>
      w <- get_world ;;
      match socket_of w socketId with
      | Some socket => on_sendMessage socket f data
      | None => ret tt
      end
  | ClientDisconnect socketId =>
      w <- get_world ;;
      match socket_of w socketId with
      | Some socket => on_disconnect socket ;; remove_handlers socketId
      | None => ret tt
      end
  | HttpApiWrite d => set_db d
  end.

Definition step (w : world) (ev : event) : world := exec (dispatch ev) w.

Definition run (w : world) (evs : list event) : world := fold_left step evs w.

(** A freshly started server: nobody is registered, whatever the database
    holds. *)
Definition initial (d : database) : world := World [] [] d [].

(** socket.io gives every connection a non-empty id. *)
Definition well_formed (ev : event) : Prop :=
  match ev with
  | Handshake socketId _ _ => socketId <> []
  | _ => True
  end.

Inductive reachable : world -> Prop :=
| reachable_initial d : reachable (initial d)
| reachable_step w ev : reachable w -> well_formed ev -> reachable (step w ev).

(** The effects a computation added to the trace. *)
Definition added (w w' : world) : list effect := skipn (List.length (trace w)) (trace w').

Definition emitted (w w' : world) : list effect := filter is_emit (added w w').

Definition db_calls (w w' : world) : list effect := filter is_db (added w w').

(** ** The [sendMessage] handler with its awaits

    The handler is suspended at [await FriendRequest.findOne],
    [await Message.create] and [await Notification.create].  While it is
    suspended the server handles other events: connections and disconnects
    change the registry, the HTTP API and other sends change the database.
    The other handlers are run in one piece each; a [sendMessage] among
    them writes neither the registry nor the installed handlers. *)

(** What the server handles while one call is pending: the events before
    the store carries the call out, and those between that and the moment
    the handler resumes. *)
Record pending := Pending {
  before_call : list event;
  after_call : list event
}.

(** One [pending] for each of the three awaits. *)
Record schedule := Schedule {
  at_findOne : pending;
  at_message : pending;
  at_notification : pending
}.

Definition no_interleaving : schedule :=
  Schedule (Pending [] []) (Pending [] []) (Pending [] []).

(** [await call]: the result (or the exception) reaches the handler after
    the events of [p]. *)
Definition await {A} (p : pending) (call : M A) : M A :=
  fun w =>
    let (r, w') := call (run w (before_call p)) in
    (r, run w' (after_call p)).

(** Lines 98 to 136, up to the resumption after [Notification.create]:
    the message, the notification fields and the receiver the emits use. *)
Definition send_prefix (socket : Socket) (f : faults) (sched : schedule) (data : jsval)
    : M (Message.t * Notification.t * jsval) :=
  let userId := User.clerkId (user socket) in
  receiverId <- eval (destructure data "receiverId") ;;
  content <- eval (destructure data "content") ;;
  trimmedContent <- eval (optional_trim content) ;;
  match trimmedContent with
  | None | Some [] =>   (* !trimmedContent: undefined or the empty string *)
      throw (Error (lit "Message cannot be empty"))
  | Some (c :: cs) =>
      let trimmedContent := c :: cs in
      friendshipStatus <-
        await (at_findOne sched)
          (FriendRequest_findOne (friendRequest_fault f) userId receiverId) ;;
      match friendshipStatus with
      | None =>
          throw (Error (lit
            "You can only message users who have accepted your friend request"))
      | Some _ =>
          message <-
            await (at_message sched)
              (Message_create (message_fault f) userId receiverId trimmedContent) ;;
          let notification :=
            Notification.mk receiverId
              (lit "New message from " ++ User.fullName (user socket))
              (lit "message")
              (Message._id message) in
          await (at_notification sched)
            (Notification_create (notification_fault f) notification) ;;
          ret (message, notification, receiverId)
      end
  end.

(** Lines 138 to 145: the registry is read here, in the world the handler
    resumes in. *)
Definition send_emit (socket : Socket) (x : Message.t * Notification.t * jsval) : M unit :=
  let '(message, notification, receiverId) := x in
  receiverSocketId <- userSockets_get receiverId ;;
  match receiverSocketId with
  | Some (h :: hs) =>
      log (IoToEmit (h :: hs) "messageUpdate"
             (MessageUpdate message (Some notification)))
  | Some [] | None => ret tt
  end ;;
  log (SocketEmit (id socket) "messageUpdate" (MessageUpdate message None)).

Definition on_sendMessage_async (socket : Socket) (f : faults) (sched : schedule)
    (data : jsval) : M unit :=
  try_catch
    (x <- send_prefix socket f sched data ;; send_emit socket x)
    (fun error =>
       log (SocketEmit (id socket) "messageError"
              (MessageError (or_else (message error) (lit "Failed to send message"))))).




(** ** Notions the properties are stated with *)

(** Keys are unique and every stored handle is a non-empty socket id. *)
Definition registry_ok (m : map jsstring) : Prop :=
  NoDup (map_keys m) /\ forall k h, In (k, h) m -> h <> [].

(** The spec's [isAccepted]: some friendship record between the two
    identities, in either direction, has status "accepted". *)
Definition accepted_record (A : jsstring) (B : jsval) (r : FriendRequest.t) : Prop :=
  FriendRequest.status r = lit "accepted"
  /\ ((FriendRequest.senderId r = A /\ B = JString (FriendRequest.receiverId r))
      \/ (B = JString (FriendRequest.senderId r) /\ FriendRequest.receiverId r = A)).

Definition isAccepted (d : database) (A : jsstring) (B : jsval) : Prop :=
  exists r, In r (friendRequests d) /\ accepted_record A B r.

(** The handle on record for a receiver identity taken from a payload. *)
Definition registry_entry (w : world) (B : jsval) : option jsstring :=
  match B with
  | JString b => map_get (userSockets w) b
  | _ => None
  end.

(** The document and the notification fields a send from [socket] to [B]
    creates in world [w]. *)
Definition new_message (socket : Socket) (B : jsval) (text : jsstring) (w : world)
    : Message.t :=
  Message.mk (next_id (db w)) (User.clerkId (user socket)) B text.

Definition new_notification (socket : Socket) (B : jsval) (w : world) : Notification.t :=
  Notification.mk B (lit "New message from " ++ User.fullName (user socket))
    (lit "message") (next_id (db w)).

(** Every place of an effect where a sender identity or name appears
    carries the one of the connection's [socket.user]. *)
Definition sender_from_connection (socket : Socket) (e : effect) : Prop :=
  match e with
  | Db (CallFriendRequestFindOne a _) => a = User.clerkId (user socket)
  | Db (CallMessageCreate a _ _) => a = User.clerkId (user socket)
  | Db (CallNotificationCreate n) =>
      Notification.message n = lit "New message from " ++ User.fullName (user socket)
  | Db (CallUserFindOne _) => False
  | IoToEmit _ _ (MessageUpdate m _) | SocketEmit _ _ (MessageUpdate m _) =>
      Message.senderId m = User.clerkId (user socket)
  | _ => True
  end.

(** No user record carries the claimed identity. *)
Definition no_user_record (d : database) (userId : jsval) : Prop :=
  forall u, In u (users d) -> userId <> JString (User.clerkId u).

(** ** A small scenario, used to run the model on concrete inputs *)

Module Scenario.
Local Open Scope string_scope.

Definition alice : User.t := User.mk (lit "user_A") (lit "Alice").
Definition bob : User.t := User.mk (lit "user_B") (lit "Bob").
Definition carol : User.t := User.mk (lit "user_C") (lit "Carol").

(** Bob's request to Alice was accepted; Carol's is pending. *)
Definition d0 : database :=
  Database [alice; bob; carol]
    [FriendRequest.mk (lit "user_B") (lit "user_A") (lit "accepted");
     FriendRequest.mk (lit "user_C") (lit "user_A") (lit "pending")]
    [] [] 0.

Definition connect (h : string) (u : User.t) : event :=
  Handshake (lit h) (JString (User.clerkId u)) None.

(** Alice holds one connection, Bob none. *)
Definition alice_online : world := run (initial d0) [connect "a1" alice].

(** Alice and Bob both hold a connection. *)
Definition both_online : world :=
  run (initial d0) [connect "a1" alice; connect "b1" bob].
End Scenario.

Module ScenarioSend.
Import Scenario.

Definition a1 : Socket := {| id := lit "a1"; user := alice |}.

Definition hi_bob : jsval :=
  JObject [("receiverId"%string, JString (lit "user_B"));
           ("content"%string, JString (lit " hi "))].

Definition the_message : Message.t :=
  Message.mk 0 (lit "user_A") (JString (lit "user_B")) (lit "hi").

Definition the_notification : Notification.t :=
  Notification.mk (JString (lit "user_B")) (lit "New message from Alice")
    (lit "message") 0.


End ScenarioSend.

(** ** Outcomes of one [sendMessage] *)

(** The reply on the sender's own socket: an error, or the confirmation. *)
Definition error_reply (socket : Socket) (msg : jsstring) : effect :=
  SocketEmit (id socket) "messageError" (MessageError msg).

Definition confirmation (socket : Socket) (m : Message.t) : effect :=
  SocketEmit (id socket) "messageUpdate" (MessageUpdate m None).

(** The receiver-bound event, when [userSockets.get(receiverId)] is truthy. *)
Definition delivery (w : world) (B : jsval) (m : Message.t) (n : Notification.t)
    : list effect :=
  match registry_entry w B with
  | Some (h :: hs) => [IoToEmit (h :: hs) "messageUpdate" (MessageUpdate m (Some n))]
  | Some [] | None => []
  end.

Definition with_message (d : database) (m : Message.t) : database :=
  Database (users d) (friendRequests d) (messages d ++ [m]) (notifications d)
    (N.succ (next_id d)).

Definition with_notification (d : database) (n : Notification.t) : database :=
  Database (users d) (friendRequests d) (messages d) (notifications d ++ [n]) (next_id d).

(** The five ways the handler can run, by the statement that ends the [try]
    block: before the friendship query, at the query, at [Message.create],
    at [Notification.create], or at its end. *)
Inductive send_outcome (socket : Socket) (f : faults) (data : jsval) (w w' : world)
    : Prop :=
| invalid_payload msg :
    msg <> [] ->
    (forall B s, destructure data "receiverId" = Normal B ->
                 destructure data "content" = Normal (JString s) -> trim s = []) ->
    w' = World (userSockets w) (listening w) (db w)
           (trace w ++ [error_reply socket msg]) ->
    send_outcome socket f data w w'
| gate_closed B s msg :
    destructure data "receiverId" = Normal B ->
    destructure data "content" = Normal (JString s) ->
    trim s <> [] ->
    msg <> [] ->
    friendRequest_fault f <> None \/ ~ isAccepted (db w) (User.clerkId (user socket)) B ->
    w' = World (userSockets w) (listening w) (db w)
           (trace w ++ [Db (CallFriendRequestFindOne (User.clerkId (user socket)) B);
                        error_reply socket msg]) ->
    send_outcome socket f data w w'
| message_not_stored B s msg :
    destructure data "receiverId" = Normal B ->
    destructure data "content" = Normal (JString s) ->
    trim s <> [] ->
    msg <> [] ->
    friendRequest_fault f = None ->
    isAccepted (db w) (User.clerkId (user socket)) B ->
    message_fault f <> None ->
    w' = World (userSockets w) (listening w) (db w)
           (trace w ++ [Db (CallFriendRequestFindOne (User.clerkId (user socket)) B);
                        Db (CallMessageCreate (User.clerkId (user socket)) B (trim s));
                        error_reply socket msg]) ->
    send_outcome socket f data w w'
| notification_not_stored B s msg :
    destructure data "receiverId" = Normal B ->
    destructure data "content" = Normal (JString s) ->
    trim s <> [] ->
    msg <> [] ->
    friendRequest_fault f = None ->
    isAccepted (db w) (User.clerkId (user socket)) B ->
    message_fault f = None ->
    notification_fault f <> None ->
    w' = World (userSockets w) (listening w)
           (with_message (db w) (new_message socket B (trim s) w))
           (trace w ++ [Db (CallFriendRequestFindOne (User.clerkId (user socket)) B);
                        Db (CallMessageCreate (User.clerkId (user socket)) B (trim s));
                        Db (CallNotificationCreate (new_notification socket B w));
                        error_reply socket msg]) ->
    send_outcome socket f data w w'
| sent B s :
    destructure data "receiverId" = Normal B ->
    destructure data "content" = Normal (JString s) ->
    trim s <> [] ->
    friendRequest_fault f = None ->
    isAccepted (db w) (User.clerkId (user socket)) B ->
    message_fault f = None ->
    notification_fault f = None ->
    w' = World (userSockets w) (listening w)
           (with_notification
              (with_message (db w) (new_message socket B (trim s) w))
              (new_notification socket B w))
           (trace w ++ [Db (CallFriendRequestFindOne (User.clerkId (user socket)) B);
                        Db (CallMessageCreate (User.clerkId (user socket)) B (trim s));
                        Db (CallNotificationCreate (new_notification socket B w))]
                    ++ delivery w B (new_message socket B (trim s) w)
                         (new_notification socket B w)
                    ++ [confirmation socket (new_message socket B (trim s) w)]) ->
    send_outcome socket f data w w'.

(** The roster of a presence broadcast lists no identity twice. *)
Definition roster_ok (e : effect) : Prop :=
  match e with
  | IoEmit _ (StatusUpdate _ _ onlineUsers) => NoDup onlineUsers
  | _ => True
  end.

(** An event on one socket ([socket.emit]). *)
Definition on_socket (e : effect) : bool :=
  match e with SocketEmit _ _ _ => true | _ => false end.

(** What the sender can get back: the confirmation, or an error with some
    text. *)
Definition is_reply (socket : Socket) (e : effect) : Prop :=
  (exists m, e = confirmation socket m)
  \/ (exists msg, msg <> [] /\ e = error_reply socket msg).

(** A text with something in it and no white space at either end. *)
Definition trimmed (t : jsstring) : Prop :=
  t <> []
  /\ is_white_space (hd 0%N t) = false
  /\ is_white_space (last t 0%N) = false.

(** ** Settings that depend on the environment ([socket.js], top of the
    module and the [cookie] option) *)

Module Config.

(** [process.env.NODE_ENV !== 'production']; an unset variable is
    [undefined]. *)
Definition isDevelopment (NODE_ENV : option jsstring) : bool :=
  match NODE_ENV with
  | Some v => negb (str_eqb v (lit "production"))
  | None => true
  end.

(** The [origin] option of cors: a list of origins, or [true]. *)
Inductive origin : Type :=
| Origins (allowed : list jsstring)
| AnyOrigin.

Definition ALLOWED_ORIGINS (NODE_ENV : option jsstring) : origin :=
  if isDevelopment NODE_ENV
  then Origins [lit "http://localhost:3000"; lit "http://localhost:5173"]
  else AnyOrigin.

Record cookie_options := Cookie {
  name : jsstring;
  path : jsstring;
  httpOnly : bool;
  sameSite : jsstring;
  secure : bool
}.

Definition cookie (NODE_ENV : option jsstring) : cookie_options :=
  Cookie (lit "io") (lit "/") true
    (if isDevelopment NODE_ENV then lit "lax" else lit "strict")
    (negb (isDevelopment NODE_ENV)).

End Config.

(** ** The mood endpoint of [song.controller.js] *)

Module SongController.
Section Mood.

(** The song documents and the service [getMoodBasedSongs] (imported from
    [../services/mood.service.js]) are not among the sources: the handler is
    taken over any type of songs and any service, which may throw. *)
Variable Song : Type.
Variable getMoodBasedSongs : jsval -> completion (list Song).

Inductive body : Type :=
| SongsBody (songs : list Song)          (* res.json(songs) *)
| MessageBody (message : jsstring).      (* res.json({ message }) *)

Inductive http_effect : Type :=
| ServiceCall (mood : jsval)             (* getMoodBasedSongs(mood) was called *)
| ConsoleError                           (* console.error(...) *)
| Respond (status : N) (b : body).       (* res.status(status).json(b); 200 by default *)

(** [['happy', 'sad', 'romantic', 'party']] *)
Definition moods : list jsstring :=
  [lit "happy"; lit "sad"; lit "romantic"; lit "party"].

(** [Array.prototype.includes] on an array of strings: only an equal string
    is found. *)
Definition includes (l : list jsstring) (v : jsval) : bool :=
  match v with
  | JString s => existsb (fun x => str_eqb x s) l
  | _ => false
  end.

(** [getMoodSongs(req, res)], with [params] the fields of [req.params]. *)
Definition getMoodSongs (params : list (string * jsval)) : list http_effect :=
  let mood := own_property params "mood" in
  if negb (includes moods mood) then
    [Respond 400 (MessageBody (lit "Invalid mood"))]
  else
    ServiceCall mood ::
    match getMoodBasedSongs mood with
    | Normal songs => [Respond 200 (SongsBody songs)]
    | Throw error =>
        [ConsoleError;
         Respond 500 (MessageBody (lit "Failed to fetch mood-based songs"))]
    end.

Definition is_response (e : http_effect) : bool :=
  match e with Respond _ _ => true | _ => false end.

Definition is_service_call (e : http_effect) : bool :=
  match e with ServiceCall _ => true | _ => false end.

End Mood.
End SongController.

(** * Properties *)

(** ** Strings *)

Lemma str_eqb_eq (a b : jsstring) : str_eqb a b = true <-> a = b.
Proof.
  revert b; induction a as [|x a IH]; intros [|y b]; simpl; split;
    try congruence; try reflexivity.
  - intros H. apply andb_true_iff in H as [Hx Hr].
    apply N.eqb_eq in Hx. apply IH in Hr. congruence.
  - intros H. injection H as -> ->.
    apply andb_true_iff. split; [apply N.eqb_refl | now apply IH].
Qed.

Lemma str_eqb_refl (a : jsstring) : str_eqb a a = true.
Proof. now apply str_eqb_eq. Qed.

Lemma str_eqb_neq (a b : jsstring) : str_eqb a b = false <-> a <> b.
Proof.
  split.
  - intros H E. apply str_eqb_eq in E. congruence.
  - intros H. destruct (str_eqb a b) eqn:E; [|reflexivity].
    apply str_eqb_eq in E. contradiction.
Qed.

Lemma trimStart_nil_iff (s : jsstring) :
  trimStart s = [] <-> forallb is_white_space s = true.
Proof.
  induction s as [|c s IH]; simpl.
  - tauto.
  - destruct (is_white_space c); simpl; [exact IH|]. split; discriminate.
Qed.

Lemma trimStart_white (s : jsstring) :
  forallb is_white_space s = true -> trimStart s = [].
Proof. apply trimStart_nil_iff. Qed.

Lemma trimStart_suffix (s : jsstring) : exists p, s = p ++ trimStart s /\ forallb is_white_space p = true.
Proof.
  induction s as [|c s [p [E W]]]; simpl.
  - now exists [].
  - destruct (is_white_space c) eqn:Hc.
    + exists (c :: p). simpl. rewrite Hc, W. split; [congruence | reflexivity].
    + now exists [].
Qed.

(** [trim] yields the empty string exactly on the strings made of white
    space only (the empty one included). *)
Lemma trim_nil_iff (s : jsstring) :
  trim s = [] <-> forallb is_white_space s = true.
Proof.
  unfold trim, trimEnd. split.
  - intros H.
    assert (E : trimStart (rev (trimStart s)) = []).
    { destruct (trimStart (rev (trimStart s))) as [|c l]; [reflexivity|].
      simpl in H. apply app_eq_nil in H as [_ H]. discriminate. }
    apply trimStart_nil_iff in E.
    rewrite forallb_forall in E.
    destruct (trimStart_suffix s) as [p [Es W]].
    rewrite Es, forallb_app, W. simpl.
    apply forallb_forall. intros x Hx. apply E. now apply in_rev in Hx.
  - intros H. rewrite (trimStart_white _ H). reflexivity.
Qed.

Example trim_strips_both_ends : trim (lit "  hi there ") = lit "hi there".
Proof. reflexivity. Qed.

Example trim_blank : trim [32; 9; 10; 13; 160; 8232; 65279]%N = [].
Proof. reflexivity. Qed.

Example zero_width_space_is_kept : trim [8203]%N = [8203]%N.
Proof. reflexivity. Qed.

Example optional_trim_number : optional_trim (JNumber 5) =
  Throw (Error (lit "content?.trim is not a function")).
Proof. reflexivity. Qed.

(** ** The [Map] model *)

Section MapFacts.
Variable V : Type.
Implicit Types (m : map V) (k : jsstring) (v : V).

Lemma map_get_set_same m k v : map_get (map_set m k v) k = Some v.
Proof.
  induction m as [|[k' v'] m IH]; simpl.
  - now rewrite str_eqb_refl.
  - destruct (str_eqb k' k) eqn:E; simpl; rewrite E; [reflexivity | exact IH].
Qed.

Lemma map_get_set_other m k k' v :
  k' <> k -> map_get (map_set m k v) k' = map_get m k'.
Proof.
  intros N. induction m as [|[k0 v0] m IH]; simpl.
  - apply str_eqb_neq in N.
    destruct (str_eqb k k') eqn:E; [|reflexivity].
    apply str_eqb_eq in E. subst. now rewrite str_eqb_refl in N.
  - destruct (str_eqb k0 k) eqn:E; simpl.
    + apply str_eqb_eq in E. subst k0.
      assert (F : str_eqb k k' = false) by (apply str_eqb_neq; congruence).
      now rewrite F.
    + now rewrite IH.
Qed.

Lemma map_get_In m k : map_get m k <> None <-> In k (map_keys m).
Proof.
  induction m as [|[k' v'] m IH]; simpl.
  - tauto.
  - destruct (str_eqb k' k) eqn:E.
    + apply str_eqb_eq in E. split; [now left | discriminate].
    + apply str_eqb_neq in E. rewrite IH. tauto.
Qed.


(** [set] on a key that has an entry changes no key; on a new key it
    appends the key. *)
Lemma map_keys_set m k v :
  map_keys (map_set m k v) =
  if in_dec (list_eq_dec N.eq_dec) k (map_keys m) then map_keys m
  else map_keys m ++ [k].
Proof.
  unfold map_keys. induction m as [|[k' v'] m IH]; simpl.
  - reflexivity.
  - destruct (str_eqb k' k) eqn:E.
    + apply str_eqb_eq in E. subst k'. simpl.
      destruct (list_eq_dec N.eq_dec k k); [reflexivity | contradiction].
    + apply str_eqb_neq in E. simpl. rewrite IH.
      destruct (list_eq_dec N.eq_dec k' k); [contradiction|].
      now destruct (in_dec (list_eq_dec N.eq_dec) k (List.map fst m)).
Qed.

Lemma map_set_In_keys m k v : In k (map_keys (map_set m k v)).
Proof.
  apply map_get_In. rewrite map_get_set_same. discriminate.
Qed.

Lemma map_set_NoDup m k v :
  NoDup (map_keys m) -> NoDup (map_keys (map_set m k v)).
Proof.
  intros H. rewrite map_keys_set.
  destruct (in_dec (list_eq_dec N.eq_dec) k (map_keys m)) as [i|n]; [exact H|].
  apply NoDup_app; [exact H | constructor; [intros [] | constructor] |].
  intros x Hx [<-|[]]. contradiction.
Qed.

Lemma map_delete_keys_incl m k x :
  In x (map_keys (map_delete m k)) -> In x (map_keys m).
Proof.
  induction m as [|[k' v'] m IH]; simpl; [tauto|].
  destruct (str_eqb k' k); simpl; [now right | intros [H|H]; [now left | right; now apply IH]].
Qed.

Lemma map_delete_NoDup m k :
  NoDup (map_keys m) -> NoDup (map_keys (map_delete m k)).
Proof.
  induction m as [|[k' v'] m IH]; simpl; intros H; [constructor|].
  inversion H as [|? ? Hn Hd]; subst.
  destruct (str_eqb k' k); simpl; [exact Hd|].
  constructor; [|now apply IH].
  intros Hin. apply Hn. eapply map_delete_keys_incl, Hin.
Qed.

Lemma map_delete_not_In m k :
  NoDup (map_keys m) -> ~ In k (map_keys (map_delete m k)).
Proof.
  induction m as [|[k' v'] m IH]; simpl; intros H; [tauto|].
  inversion H as [|? ? Hn Hd]; subst.
  destruct (str_eqb k' k) eqn:E; simpl.
  - apply str_eqb_eq in E. now subst.
  - apply str_eqb_neq in E. intros [F|F]; [contradiction | now apply IH in F].
Qed.

Lemma map_delete_get m k :
  NoDup (map_keys m) -> map_get (map_delete m k) k = None.
Proof.
  intros H. destruct (map_get (map_delete m k) k) eqn:E; [|reflexivity].
  exfalso. eapply map_delete_not_In; [exact H|]. apply map_get_In. rewrite E. discriminate.
Qed.

Lemma map_delete_In m k e :
  In e (map_delete m k) -> In e m.
Proof.
  induction m as [|[k' v'] m IH]; simpl; [tauto|].
  destruct (str_eqb k' k); simpl; [now right | intros [H|H]; [now left | right; now apply IH]].
Qed.

Lemma map_set_In m k v e :
  In e (map_set m k v) -> In e m \/ e = (k, v).
Proof.
  induction m as [|[k' v'] m IH]; simpl.
  - intros [H|[]]. now right.
  - destruct (str_eqb k' k) eqn:E; simpl.
    + apply str_eqb_eq in E. subst. intros [H|H]; [now right | left; now right].
    + intros [H|H]; [left; now left|]. destruct (IH H); [left; now right | now right].
Qed.

(** Keys without duplicates: no key has two entries. *)
Lemma NoDup_entries_for m k : NoDup (map_keys m) -> entries_for m k <= 1.
Proof.
  unfold entries_for. induction m as [|[k' v'] m IH]; simpl; intros H; [lia|].
  inversion H as [|? ? Hn Hd]; subst.
  destruct (str_eqb k' k) eqn:E; simpl; [|now apply IH].
  apply str_eqb_eq in E. subst k'.
  assert (Z : filter (fun e : jsstring * V => str_eqb (fst e) k) m = []).
  { clear -Hn. induction m as [|[k0 v0] m IH]; simpl in *; [reflexivity|].
    destruct (str_eqb k0 k) eqn:E.
    - apply str_eqb_eq in E. subst. tauto.
    - apply IH. tauto. }
  rewrite Z. simpl. lia.
Qed.
End MapFacts.

(** ** Running the handlers *)

Lemma added_app (w : world) us ls d (l : list effect) :
  added w (World us ls d (trace w ++ l)) = l.
Proof.
  unfold added. simpl. rewrite skipn_app, skipn_all, Nat.sub_diag. reflexivity.
Qed.

Lemma added_refl (w : world) : added w w = [].
Proof. unfold added. apply skipn_all. Qed.

Ltac js_unfold :=
  unfold on_sendMessage, on_connection, on_disconnect, auth_middleware,
    FriendRequest_findOne, Message_create, Notification_create, User_findOne,
    await_db, userSockets_get, userSockets_set, userSockets_delete,
    userSockets_keys, install_handlers, remove_handlers,
    try_catch, bind, eval, throw, ret, log, get_world, set_db,
    set_userSockets, set_listening in *;
  simpl in *.

Ltac js_case :=
  match goal with
  | |- context [match ?c with Normal _ => _ | Throw _ => _ end] =>
      destruct c eqn:?; simpl
  | |- context [match ?o with Some _ => _ | None => _ end] =>
      destruct o eqn:?; simpl
  | |- context [match ?l with [] => _ | _ :: _ => _ end] =>
      destruct l eqn:?; simpl
  | |- context [match ?v with JString _ => _ | _ => _ end] =>
      destruct v eqn:?; simpl
  end.

Ltac js_close :=
  rewrite <- ?app_assoc; simpl; do 2 eexists; reflexivity.

(** The connection handler, in one equation. *)
Lemma on_connection_eq (socket : Socket) (w : world) :
  on_connection socket w =
  (Normal tt,
   let m := map_set (userSockets w) (User.clerkId (user socket)) (id socket) in
   World m (socket :: listening w) (db w)
     (trace w ++ [IoEmit "user_status_update"
                    (StatusUpdate (User.clerkId (user socket)) "connected" (map_keys m))])).
Proof. reflexivity. Qed.

(** The disconnect handler, in one equation. *)
Lemma on_disconnect_eq (socket : Socket) (w : world) :
  on_disconnect socket w =
  (Normal tt,
   let m := map_delete (userSockets w) (User.clerkId (user socket)) in
   World m (listening w) (db w)
     (trace w ++ [IoEmit "user_status_update"
                    (StatusUpdate (User.clerkId (user socket)) "disconnected" (map_keys m))])).
Proof. reflexivity. Qed.

(** [sendMessage] never lets an exception escape, and touches neither the
    registry nor the installed handlers: it can only write the database and
    extend the trace. *)
Lemma on_sendMessage_frame (socket : Socket) (f : faults) (data : jsval) (w : world) :
  exists d l,
    on_sendMessage socket f data w =
    (Normal tt, World (userSockets w) (listening w) d (trace w ++ l)).
Proof.
  destruct f as [f1 f2 f3]. js_unfold.
  repeat js_case; js_close.
Qed.

(** The middleware only reads the database and reports through [next]. *)
Lemma auth_middleware_frame (userId : jsval) (fault : option jsstring) (w : world) :
  exists r l,
    auth_middleware userId fault w =
    (Normal r, World (userSockets w) (listening w) (db w) (trace w ++ l)).
Proof.
  js_unfold. destruct (truthy userId); simpl; [|js_close].
  destruct fault; simpl; [js_close|].
  destruct (find _ (users (db w))); simpl; js_close.
Qed.

(** ** Invariants of the registry *)

Lemma registry_ok_set m k h : h <> [] -> registry_ok m -> registry_ok (map_set m k h).
Proof.
  intros Hh [Hn Hs]. split; [now apply map_set_NoDup|].
  intros k' h' Hin. apply map_set_In in Hin as [Hin|[= _ ->]]; eauto.
Qed.

Lemma registry_ok_delete m k : registry_ok m -> registry_ok (map_delete m k).
Proof.
  intros [Hn Hs]. split; [now apply map_delete_NoDup|].
  intros k' h' Hin. apply map_delete_In in Hin. eauto.
Qed.

(** What one event can do to the registry. *)
Lemma step_registry (w : world) (ev : event) :
  well_formed ev ->
  userSockets (step w ev) = userSockets w
  \/ (exists k h, h <> [] /\ userSockets (step w ev) = map_set (userSockets w) k h)
  \/ (exists k, userSockets (step w ev) = map_delete (userSockets w) k).
Proof.
  intros Hwf. unfold step, exec. destruct ev as [sid uid fault|sid data f|sid|d]; simpl.
  - unfold bind.
    destruct (auth_middleware_frame uid fault w) as [r [l E]]. rewrite E.
    destruct r as [u|]; [|now left].
    right; left. exists (User.clerkId u), sid. split; [exact Hwf | reflexivity].
  - unfold bind, get_world. destruct (socket_of w sid) as [s|]; [|now left].
    destruct (on_sendMessage_frame s f data w) as [d [l E]]. rewrite E. now left.
  - unfold bind, get_world. destruct (socket_of w sid) as [s|]; [|now left].
    right; right. exists (User.clerkId (user s)). reflexivity.
  - now left.
Qed.

Lemma step_registry_ok (w : world) (ev : event) :
  well_formed ev -> registry_ok (userSockets w) -> registry_ok (userSockets (step w ev)).
Proof.
  intros Hwf Hok.
  destruct (step_registry w ev Hwf) as [E|[[k [h [Hh E]]]|[k E]]]; rewrite E.
  - exact Hok.
  - now apply registry_ok_set.
  - now apply registry_ok_delete.
Qed.

Lemma reachable_registry_ok (w : world) : reachable w -> registry_ok (userSockets w).
Proof.
  induction 1 as [d|w ev Hr IH Hwf].
  - split; [constructor | intros k h []].
  - now apply step_registry_ok.
Qed.

Lemma reachable_run (w : world) (evs : list event) :
  reachable w -> Forall well_formed evs -> reachable (run w evs).
Proof.
  intros Hr Hf. revert w Hr. induction Hf as [|ev evs Hev _ IH]; intros w Hr; simpl.
  - exact Hr.
  - apply IH. now constructor.
Qed.


Lemma both_online_reachable : reachable Scenario.both_online.
Proof.
  apply reachable_run; [constructor|].
  repeat constructor; discriminate.
Qed.

Lemma alice_bob_accepted (w : world) :
  db w = Scenario.d0 -> isAccepted (db w) (lit "user_A") (JString (lit "user_B")).
Proof.
  intros ->. exists (FriendRequest.mk (lit "user_B") (lit "user_A") (lit "accepted")).
  split; [now left|]. split; [reflexivity|]. right. split; reflexivity.
Qed.

(** The scenario, run: Alice and Bob connect, Alice writes to Bob. *)
Example both_online_registry :
  userSockets Scenario.both_online
  = [(lit "user_A", lit "a1"); (lit "user_B", lit "b1")].
Proof. reflexivity. Qed.

Example both_online_last_broadcast :
  last (trace Scenario.both_online) (Next None)
  = IoEmit "user_status_update"
      (StatusUpdate (lit "user_B") "connected" [lit "user_A"; lit "user_B"]).
Proof. reflexivity. Qed.

Example alice_writes_to_bob :
  added Scenario.both_online
    (step Scenario.both_online
       (ClientSendMessage (lit "a1") ScenarioSend.hi_bob no_faults))
  = [Db (CallFriendRequestFindOne (lit "user_A") (JString (lit "user_B")));
     Db (CallMessageCreate (lit "user_A") (JString (lit "user_B")) (lit "hi"));
     Db (CallNotificationCreate ScenarioSend.the_notification);
     IoToEmit (lit "b1") "messageUpdate"
       (MessageUpdate ScenarioSend.the_message (Some ScenarioSend.the_notification));
     SocketEmit (lit "a1") "messageUpdate" (MessageUpdate ScenarioSend.the_message None)].
Proof. reflexivity. Qed.

Lemma entries_for_pos (V : Type) (m : map V) (k : jsstring) :
  In k (map_keys m) -> 1 <= entries_for m k.
Proof.
  unfold entries_for, map_keys. induction m as [|[k' v'] m IH]; simpl; [tauto|].
  intros [E|H].
  - subst. rewrite str_eqb_refl. simpl. lia.
  - destruct (str_eqb k' k); simpl; [lia | now apply IH].
Qed.

Lemma map_keys_set_present (V : Type) (m : map V) (k : jsstring) (v : V) :
  In k (map_keys m) -> map_keys (map_set m k v) = map_keys m.
Proof.
  intros H. rewrite map_keys_set.
  now destruct (in_dec (list_eq_dec N.eq_dec) k (map_keys m)).
Qed.

(** ** Presence registry *)

(** C1 fails on the code.  Alice connects as h1, then as h2; the registry
    holds h2.  The disconnect of h1 runs [userSockets.delete(userId)]: the
    connection h2 still has its handlers installed, yet Alice has no
    presence entry any more. *)
Lemma stale_disconnect_removes_newer_entry :
  let w2 := run (initial Scenario.d0)
              [Scenario.connect "h1" Scenario.alice; Scenario.connect "h2" Scenario.alice] in
  let w3 := step w2 (ClientDisconnect (lit "h1")) in
  lit "h1" <> lit "h2"
  /\ map_get (userSockets w2) (lit "user_A") = Some (lit "h2")
  /\ socket_of w3 (lit "h2") <> None
  /\ map_get (userSockets w3) (lit "user_A") <> Some (lit "h2")
  /\ map_get (userSockets w3) (lit "user_A") = None.
Proof.
  vm_compute. repeat split; discriminate.
Qed.

(** C1, amended: after register(U, h1) and register(U, h2) with h1 <> h2
    the registry holds h2 for U, and the disconnect of the superseded
    handle h1 removes U's entry: the disconnect handler deletes the entry
    of the disconnecting connection's user, whatever handle is stored. *)
Theorem disconnect_removes_by_user (w : world) (u : User.t) (h1 h2 : jsstring) :
  reachable w ->
  h1 <> h2 ->
  let s1 := {| id := h1; user := u |} in
  let s2 := {| id := h2; user := u |} in
  let w2 := exec (on_connection s2) (exec (on_connection s1) w) in
  let w3 := exec (on_disconnect s1) w2 in
  map_get (userSockets w2) (User.clerkId u) = Some h2
  /\ map_get (userSockets w3) (User.clerkId u) = None.
Proof.
  intros Hr _ s1 s2 w2 w3.
  apply reachable_registry_ok in Hr as [Hn _].
  subst w3 w2. unfold exec. rewrite !on_connection_eq, on_disconnect_eq. simpl.
  split.
  - apply map_get_set_same.
  - apply map_delete_get. now do 2 apply map_set_NoDup.
Qed.

Lemma disconnect_removes_by_user_witness :
  let s2 := {| id := lit "a2"; user := Scenario.alice |} in
  let s1 := {| id := lit "a1"; user := Scenario.alice |} in
  let w2 := exec (on_connection s2) (exec (on_connection s1) Scenario.both_online) in
  map_get (userSockets w2) (lit "user_A") = Some (lit "a2")
  /\ map_get (userSockets (exec (on_disconnect s1) w2)) (lit "user_A") = None.
Proof.
  apply (@disconnect_removes_by_user Scenario.both_online Scenario.alice (lit "a1") (lit "a2")).
  - exact both_online_reachable.
  - vm_compute. discriminate.
Defined.

(** C2: in every reachable state no user identity has two presence
    entries, every connect or disconnect (any event) leads to such a state
    again, and registering a user who has an entry overwrites that entry in
    place: the new handle is stored and no key is added. *)
Theorem one_entry_per_user (w : world) :
  reachable w ->
  (forall U, entries_for (userSockets w) U <= 1)
  /\ (forall ev, well_formed ev ->
        forall U, entries_for (userSockets (step w ev)) U <= 1)
  /\ (forall (s : Socket) (h1 : jsstring),
        map_get (userSockets w) (User.clerkId (user s)) = Some h1 ->
        let w' := exec (on_connection s) w in
        map_get (userSockets w') (User.clerkId (user s)) = Some (id s)
        /\ map_keys (userSockets w') = map_keys (userSockets w)
        /\ entries_for (userSockets w') (User.clerkId (user s)) = 1).
Proof.
  intros Hr. pose proof (reachable_registry_ok Hr) as [Hn Hs].
  split; [|split].
  - intros U. now apply NoDup_entries_for.
  - intros ev Hwf U. apply NoDup_entries_for.
    apply (step_registry_ok w ev Hwf). now split.
  - intros s h1 Hget w'. subst w'. unfold exec. rewrite on_connection_eq. simpl.
    assert (Hin : In (User.clerkId (user s)) (map_keys (userSockets w))).
    { apply map_get_In. rewrite Hget. discriminate. }
    split; [apply map_get_set_same|].
    split; [now apply map_keys_set_present|].
    apply Nat.le_antisymm.
    + apply NoDup_entries_for. now apply map_set_NoDup.
    + apply entries_for_pos, map_set_In_keys.
Qed.

Lemma one_entry_per_user_witness :
  (forall U, entries_for (userSockets Scenario.both_online) U <= 1)
  /\ (forall ev, well_formed ev ->
        forall U, entries_for (userSockets (step Scenario.both_online ev)) U <= 1)
  /\ (forall (s : Socket) (h1 : jsstring),
        map_get (userSockets Scenario.both_online) (User.clerkId (user s)) = Some h1 ->
        let w' := exec (on_connection s) Scenario.both_online in
        map_get (userSockets w') (User.clerkId (user s)) = Some (id s)
        /\ map_keys (userSockets w') = map_keys (userSockets Scenario.both_online)
        /\ entries_for (userSockets w') (User.clerkId (user s)) = 1).
Proof.
  apply (@one_entry_per_user Scenario.both_online).
  exact both_online_reachable.
Defined.

(** C6: the roster of the [user_status_update] broadcast on a connect or a
    disconnect is the key list of the registry after the update: it
    contains the connecting user, and it does not contain the disconnecting
    user. *)
Theorem roster_reflects_registry_after_event (w : world) (s : Socket) :
  reachable w ->
  let U := User.clerkId (user s) in
  (let w' := exec (on_connection s) w in
   emitted w w' =
     [IoEmit "user_status_update"
        (StatusUpdate U "connected" (map_keys (userSockets w')))]
   /\ In U (map_keys (userSockets w')))
  /\
  (let w' := exec (on_disconnect s) w in
   emitted w w' =
     [IoEmit "user_status_update"
        (StatusUpdate U "disconnected" (map_keys (userSockets w')))]
   /\ ~ In U (map_keys (userSockets w'))).
Proof.
  intros Hr U. apply reachable_registry_ok in Hr as [Hn _].
  unfold exec, emitted. rewrite on_connection_eq, on_disconnect_eq. simpl.
  rewrite !added_app. simpl. repeat split.
  - apply map_set_In_keys.
  - now apply map_delete_not_In.
Qed.

Lemma roster_reflects_registry_after_event_witness :
  In (lit "user_C")
     (map_keys (userSockets
        (exec (on_connection {| id := lit "c1"; user := Scenario.carol |})
              Scenario.both_online)))
  /\ ~ In (lit "user_B")
       (map_keys (userSockets
          (exec (on_disconnect {| id := lit "b1"; user := Scenario.bob |})
                Scenario.both_online))).
Proof.
  split.
  - apply (@roster_reflects_registry_after_event Scenario.both_online
             {| id := lit "c1"; user := Scenario.carol |}
             both_online_reachable).
  - apply (@roster_reflects_registry_after_event Scenario.both_online
             {| id := lit "b1"; user := Scenario.bob |}
             both_online_reachable).
Defined.

(** ** Friendship gate *)

Lemma field_is_spec (stored : jsstring) (v : jsval) :
  field_is stored v = true <-> v = JString stored.
Proof.
  destruct v; simpl; try (split; [discriminate | intros [=]]).
  rewrite str_eqb_eq. split; [now intros -> | now intros [= ->]].
Qed.

Lemma friendship_filter_spec (A : jsstring) (B : jsval) (r : FriendRequest.t) :
  friendship_filter A B r = true <-> accepted_record A B r.
Proof.
  unfold friendship_filter, accepted_record.
  rewrite andb_true_iff, orb_true_iff, !andb_true_iff, !str_eqb_eq, !field_is_spec.
  tauto.
Qed.

Lemma findOne_none (d : database) (A : jsstring) (B : jsval) :
  ~ isAccepted d A B -> find (friendship_filter A B) (friendRequests d) = None.
Proof.
  intros H. destruct (find _ _) as [r|] eqn:E; [|reflexivity].
  apply find_some in E as [Hin Hf]. exfalso. apply H.
  exists r. split; [exact Hin | now apply friendship_filter_spec].
Qed.

Lemma findOne_some (d : database) (A : jsstring) (B : jsval) :
  isAccepted d A B -> exists r, find (friendship_filter A B) (friendRequests d) = Some r.
Proof.
  intros [r [Hin Hr]]. destruct (find _ _) as [r'|] eqn:E; [now exists r'|].
  apply (find_none _ _ E) in Hin. apply friendship_filter_spec in Hr. congruence.
Qed.

Lemma isAccepted_string (d : database) (A : jsstring) (B : jsval) :
  isAccepted d A B -> exists b, B = JString b.
Proof.
  intros [r [_ [_ [[_ E]|[E _]]]]]; eauto.
Qed.

(** ** Message pipeline *)

Ltac js_trace :=
  rewrite <- ?app_assoc; unfold emitted, db_calls; rewrite ?added_app; simpl.

(** C3: a send from A to B without an accepted friendship record between
    them, in either direction, persists nothing, emits no [messageUpdate],
    and emits exactly one event, a [messageError] on A's own socket; the
    registry and the database are as before. *)
Theorem send_to_non_friend_rejected
    (socket : Socket) (f : faults) (data : jsval) (B : jsval) (w : world) :
  destructure data "receiverId" = Normal B ->
  ~ isAccepted (db w) (User.clerkId (user socket)) B ->
  let w' := exec (on_sendMessage socket f data) w in
  db w' = db w
  /\ userSockets w' = userSockets w
  /\ (forall room p, ~ In (IoToEmit room "messageUpdate" p) (added w w'))
  /\ (forall sid p, ~ In (SocketEmit sid "messageUpdate" p) (added w w'))
  /\ exists msg,
       emitted w w' = [SocketEmit (id socket) "messageError" (MessageError msg)].
Proof.
  intros HB Hno w'. apply findOne_none in Hno.
  subst w'. unfold exec. destruct f as [f1 f2 f3]. js_unfold. rewrite HB. simpl.
  repeat js_case; try congruence; js_trace;
    (repeat split;
     [ intros room p; rewrite ?in_app_iff; simpl; intuition discriminate
     | intros sid p; rewrite ?in_app_iff; simpl; intuition discriminate
     | eexists; reflexivity ]).
Qed.

Lemma send_to_non_friend_rejected_witness :
  let socket := {| id := lit "a1"; user := Scenario.alice |} in
  let data := JObject [("receiverId"%string, JString (lit "user_C"));
                       ("content"%string, JString (lit "hello"))] in
  let w' := exec (on_sendMessage socket no_faults data) Scenario.both_online in
  db w' = db Scenario.both_online
  /\ userSockets w' = userSockets Scenario.both_online
  /\ (forall room p, ~ In (IoToEmit room "messageUpdate" p) (added Scenario.both_online w'))
  /\ (forall sid p, ~ In (SocketEmit sid "messageUpdate" p) (added Scenario.both_online w'))
  /\ exists msg,
       emitted Scenario.both_online w'
       = [SocketEmit (lit "a1") "messageError" (MessageError msg)].
Proof.
  apply (@send_to_non_friend_rejected
           {| id := lit "a1"; user := Scenario.alice |} no_faults
           (JObject [("receiverId"%string, JString (lit "user_C"));
                     ("content"%string, JString (lit "hello"))])
           (JString (lit "user_C")) Scenario.both_online).
  - reflexivity.
  - intros [r [Hin [Hst Hdir]]]. vm_compute in Hin.
    destruct Hin as [<-|[<-|[]]]; vm_compute in Hst, Hdir.
    + destruct Hdir as [[_ E]|[E _]]; discriminate.
    + discriminate.
Defined.

(** C4: content that trims to the empty string is rejected at once: the
    only effect of the handler is the [messageError] "Message cannot be
    empty" on the sender's socket.  No database call is issued, the
    friendship lookup included, and nothing is written. *)
Theorem blank_content_rejected_before_lookup
    (socket : Socket) (f : faults) (data : jsval) (s : jsstring) (w : world) :
  destructure data "content" = Normal (JString s) ->
  trim s = [] ->
  let w' := exec (on_sendMessage socket f data) w in
  added w w' =
    [SocketEmit (id socket) "messageError"
       (MessageError (lit "Message cannot be empty"))]
  /\ db_calls w w' = []
  /\ db w' = db w
  /\ userSockets w' = userSockets w
  /\ listening w' = listening w.
Proof.
  intros Hc Ht w'. subst w'. unfold exec.
  destruct data; simpl in Hc; try discriminate.
  injection Hc as Hc. js_unfold. rewrite Hc. simpl. rewrite Ht. simpl.
  js_trace. repeat split.
Qed.

Lemma blank_content_rejected_before_lookup_witness :
  let socket := {| id := lit "a1"; user := Scenario.alice |} in
  let data := JObject [("receiverId"%string, JString (lit "user_B"));
                       ("content"%string, JString (lit "   "))] in
  let w' := exec (on_sendMessage socket no_faults data) Scenario.both_online in
  added Scenario.both_online w' =
    [SocketEmit (lit "a1") "messageError"
       (MessageError (lit "Message cannot be empty"))]
  /\ db_calls Scenario.both_online w' = []
  /\ db w' = db Scenario.both_online
  /\ userSockets w' = userSockets Scenario.both_online
  /\ listening w' = listening Scenario.both_online.
Proof.
  apply (@blank_content_rejected_before_lookup
           {| id := lit "a1"; user := Scenario.alice |} no_faults
           (JObject [("receiverId"%string, JString (lit "user_B"));
                     ("content"%string, JString (lit "   "))])
           (lit "   ") Scenario.both_online); reflexivity.
Defined.

(** C10: a payload whose [content] is absent, [undefined] or [null] takes
    the empty-content path: the handler completes normally (the exception is
    caught), its only effect is the [messageError] "Message cannot be
    empty" on the sender's socket, and nothing is persisted. *)
Theorem missing_content_rejected
    (socket : Socket) (f : faults) (data : jsval) (w : world) :
  destructure data "content" = Normal JUndefined
  \/ destructure data "content" = Normal JNull ->
  on_sendMessage socket f data w =
  (Normal tt,
   World (userSockets w) (listening w) (db w)
     (trace w ++ [SocketEmit (id socket) "messageError"
                    (MessageError (lit "Message cannot be empty"))])).
Proof.
  intros Hc.
  destruct data; simpl in Hc;
    try (destruct Hc as [Hc|Hc]; discriminate);
    js_unfold; try reflexivity.
  destruct Hc as [Hc|Hc]; injection Hc as Hc; rewrite Hc; reflexivity.
Qed.

Lemma missing_content_rejected_witness :
  on_sendMessage {| id := lit "a1"; user := Scenario.alice |} no_faults
    (JObject [("receiverId"%string, JString (lit "user_B"))]) Scenario.both_online =
  (Normal tt,
   World (userSockets Scenario.both_online) (listening Scenario.both_online)
     (db Scenario.both_online)
     (trace Scenario.both_online
      ++ [SocketEmit (lit "a1") "messageError"
            (MessageError (lit "Message cannot be empty"))])).
Proof.
  apply (@missing_content_rejected {| id := lit "a1"; user := Scenario.alice |} no_faults
           (JObject [("receiverId"%string, JString (lit "user_B"))]) Scenario.both_online).
  left. reflexivity.
Defined.

(** *** The handler with its awaits *)





(** With nothing handled during the awaits the handler is
    [on_sendMessage]. *)
Lemma on_sendMessage_async_no_interleaving
    (socket : Socket) (f : faults) (data : jsval) (w : world) :
  on_sendMessage_async socket f no_interleaving data w = on_sendMessage socket f data w.
Proof.
  destruct f as [f1 f2 f3].
  unfold on_sendMessage_async, send_prefix, send_emit, await, no_interleaving.
  js_unfold. repeat js_case; reflexivity.
Qed.


(** A send with valid content and no storage fault completes its prefix
    when the friendship is on record at the time the query is carried
    out. *)
Lemma send_prefix_succeeds
    (socket : Socket) (sched : schedule) (data : jsval) (B : jsval) (s : jsstring)
    (w : world) :
  destructure data "receiverId" = Normal B ->
  destructure data "content" = Normal (JString s) ->
  trim s <> [] ->
  isAccepted (db (run w (before_call (at_findOne sched))))
    (User.clerkId (user socket)) B ->
  exists m n w_send,
    send_prefix socket no_faults sched data w = (Normal (m, n, B), w_send).
Proof.
  intros HB HC Ht Hacc. destruct (findOne_some Hacc) as [r Hfind].
  unfold send_prefix, bind, eval, throw, ret, await. rewrite HB, HC. simpl.
  destruct (trim s) as [|c cs]; [contradiction|]. simpl.
  js_unfold. rewrite Hfind. simpl. do 3 eexists. reflexivity.
Qed.


(** C7: when the notification cannot be stored after the message was, the
    message stays in the database, no notification is stored, and the only
    event emitted is a [messageError] on the sender's socket: no
    [messageUpdate] goes to the receiver or to the sender. *)
Theorem notification_fault_keeps_message
    (socket : Socket) (data : jsval) (B : jsval) (s msg : jsstring) (w : world) :
  destructure data "receiverId" = Normal B ->
  destructure data "content" = Normal (JString s) ->
  trim s <> [] ->
  isAccepted (db w) (User.clerkId (user socket)) B ->
  let w' := exec (on_sendMessage socket (Faults None None (Some msg)) data) w in
  messages (db w') = messages (db w) ++ [new_message socket B (trim s) w]
  /\ notifications (db w') = notifications (db w)
  /\ emitted w w' =
       [SocketEmit (id socket) "messageError"
          (MessageError (or_else msg (lit "Failed to send message")))].
Proof.
  intros HB Hc Ht Hacc w'.
  destruct (findOne_some Hacc) as [r Hfind].
  subst w'. unfold exec, new_message.
  js_unfold. rewrite HB. simpl. rewrite Hc. simpl.
  destruct (trim s) as [|c cs]; [contradiction|]. simpl.
  rewrite Hfind. simpl. js_trace. repeat split.
Qed.


Lemma notification_fault_keeps_message_witness :
  let w' := exec (on_sendMessage ScenarioSend.a1
                    (Faults None None (Some (lit "storage unavailable")))
                    ScenarioSend.hi_bob) Scenario.both_online in
  messages (db w') = [ScenarioSend.the_message]
  /\ notifications (db w') = []
  /\ emitted Scenario.both_online w' =
       [SocketEmit (lit "a1") "messageError" (MessageError (lit "storage unavailable"))].
Proof.
  apply (@notification_fault_keeps_message ScenarioSend.a1 ScenarioSend.hi_bob
           (JString (lit "user_B")) (lit " hi ") (lit "storage unavailable")
           Scenario.both_online).
  - reflexivity.
  - reflexivity.
  - vm_compute. discriminate.
  - apply alice_bob_accepted. reflexivity.
Defined.

(** ** Sender identity *)

(** The handler reads [receiverId] and [content] of the payload and nothing
    else. *)
Lemma on_sendMessage_reads_two_fields
    (socket : Socket) (f : faults) (d1 d2 : jsval) (w : world) :
  destructure d1 "receiverId" = destructure d2 "receiverId" ->
  destructure d1 "content" = destructure d2 "content" ->
  on_sendMessage socket f d1 w = on_sendMessage socket f d2 w.
Proof.
  intros H1 H2. unfold on_sendMessage, try_catch, bind, eval.
  rewrite H1, H2. reflexivity.
Qed.

Lemma on_sendMessage_sender (socket : Socket) (f : faults) (data : jsval) (w : world) :
  let w' := exec (on_sendMessage socket f data) w in
  Forall (sender_from_connection socket) (added w w')
  /\ (messages (db w') = messages (db w)
      \/ exists m, messages (db w') = messages (db w) ++ [m]
                   /\ Message.senderId m = User.clerkId (user socket)).
Proof.
  unfold exec. destruct f as [f1 f2 f3]. js_unfold.
  repeat js_case; js_trace;
    (split; [repeat constructor | try (left; reflexivity);
                                  right; eexists; split; reflexivity]).
Qed.

(** C8: two payloads with the same [receiverId] and [content], whatever
    else they carry, make the handler behave identically; and for every
    payload the friendship query, the stored message, the emitted messages
    and the notification text carry the identity and name of the
    connection's [socket.user]. *)
Theorem sender_identity_from_connection
    (socket : Socket) (f : faults) (d1 d2 : jsval) (w : world) :
  destructure d1 "receiverId" = destructure d2 "receiverId" ->
  destructure d1 "content" = destructure d2 "content" ->
  on_sendMessage socket f d1 w = on_sendMessage socket f d2 w
  /\ let w' := exec (on_sendMessage socket f d1) w in
     Forall (sender_from_connection socket) (added w w')
     /\ (messages (db w') = messages (db w)
         \/ exists m, messages (db w') = messages (db w) ++ [m]
                      /\ Message.senderId m = User.clerkId (user socket)).
Proof.
  intros H1 H2. split.
  - now apply on_sendMessage_reads_two_fields.
  - apply on_sendMessage_sender.
Qed.

Lemma sender_identity_from_connection_witness :
  let forged :=
    JObject [("senderId"%string, JString (lit "user_C"));
             ("receiverId"%string, JString (lit "user_B"));
             ("content"%string, JString (lit " hi "))] in
  on_sendMessage ScenarioSend.a1 no_faults forged Scenario.both_online
  = on_sendMessage ScenarioSend.a1 no_faults ScenarioSend.hi_bob Scenario.both_online.
Proof.
  apply (@sender_identity_from_connection ScenarioSend.a1 no_faults
           (JObject [("senderId"%string, JString (lit "user_C"));
                     ("receiverId"%string, JString (lit "user_B"));
                     ("content"%string, JString (lit " hi "))])
           ScenarioSend.hi_bob Scenario.both_online); reflexivity.
Defined.

(** ** Authentication gate *)

Lemma User_find_none (d : database) (userId : jsval) :
  no_user_record d userId ->
  find (fun u => field_is (User.clerkId u) userId) (users d) = None.
Proof.
  intros H. destruct (find _ _) as [u|] eqn:E; [|reflexivity].
  apply find_some in E as [Hin Hf]. apply field_is_spec in Hf.
  now apply H in Hin.
Qed.

(** C9: a handshake whose claimed identity is absent (falsy), matches no
    user record, or whose user lookup faults, is refused: [next] receives an
    error and never succeeds, the registry, the installed handlers and the
    database stay as they were, and nothing is emitted. *)
Theorem failed_authentication_blocks_connection
    (w : world) (socketId : jsstring) (userId : jsval) (fault : option jsstring) :
  truthy userId = false \/ no_user_record (db w) userId \/ fault <> None ->
  let w' := step w (Handshake socketId userId fault) in
  userSockets w' = userSockets w
  /\ listening w' = listening w
  /\ db w' = db w
  /\ emitted w w' = []
  /\ (exists err, In (Next (Some err)) (added w w'))
  /\ ~ In (Next None) (added w w').
Proof.
  intros H w'. subst w'. unfold step, exec. simpl. js_unfold.
  destruct (truthy userId) eqn:Ht; simpl.
  - destruct fault as [msg|]; simpl.
    + js_trace. repeat split; [eexists; right; left; reflexivity|].
      intros [F|[F|[]]]; discriminate.
    + destruct H as [H|[H|H]]; [discriminate| |contradiction].
      rewrite (User_find_none H). simpl. js_trace.
      repeat split; [eexists; right; left; reflexivity|].
      intros [F|[F|[]]]; discriminate.
  - js_trace. repeat split; [eexists; left; reflexivity|].
    intros [F|[]]; discriminate.
Qed.

Lemma failed_authentication_blocks_connection_witness :
  let w' := step Scenario.both_online
              (Handshake (lit "x1") (JString (lit "user_X")) None) in
  userSockets w' = userSockets Scenario.both_online
  /\ listening w' = listening Scenario.both_online
  /\ db w' = db Scenario.both_online
  /\ emitted Scenario.both_online w' = []
  /\ (exists err, In (Next (Some err)) (added Scenario.both_online w'))
  /\ ~ In (Next None) (added Scenario.both_online w').
Proof.
  apply (@failed_authentication_blocks_connection Scenario.both_online
           (lit "x1") (JString (lit "user_X")) None).
  right; left. intros u Hin. vm_compute in Hin.
  destruct Hin as [<-|[<-|[<-|[]]]]; vm_compute; discriminate.
Defined.

(** ** More on the message pipeline *)

Lemma or_else_nonempty (a b : jsstring) : b <> [] -> or_else a b <> [].
Proof. destruct a; simpl; [trivial | discriminate]. Qed.

Lemma find_friend_accepted (d : database) (A : jsstring) (B : jsval) (r : FriendRequest.t) :
  find (friendship_filter A B) (friendRequests d) = Some r -> isAccepted d A B.
Proof.
  intros E. apply find_some in E as [Hin Hf].
  exists r. split; [exact Hin | now apply friendship_filter_spec].
Qed.

Lemma find_friend_not_accepted (d : database) (A : jsstring) (B : jsval) :
  find (friendship_filter A B) (friendRequests d) = None -> ~ isAccepted d A B.
Proof.
  intros E [r [Hin Hr]]. apply (find_none _ _ E) in Hin.
  apply friendship_filter_spec in Hr. congruence.
Qed.

Ltac js_world := rewrite <- ?app_assoc; reflexivity.

Ltac js_nonempty :=
  first [ discriminate
        | simpl; discriminate
        | apply or_else_nonempty; simpl; discriminate ].

(** Every run of the handler is one of the five outcomes. *)
Lemma on_sendMessage_outcome (socket : Socket) (f : faults) (data : jsval) (w : world) :
  send_outcome socket f data w (exec (on_sendMessage socket f data) w).
Proof.
  destruct f as [f1 f2 f3]. unfold exec.
  destruct data as [| |b|z|t|fields];
    try (js_unfold; eapply invalid_payload; [ | | js_world];
         [js_nonempty | intros B s HB Hc; discriminate]).
  js_unfold.
  destruct (own_property fields "content") as [| |b|z|s|o] eqn:Hc; simpl;
    try (eapply invalid_payload; [ | | js_world];
         [js_nonempty | intros B s' HB Hs; simpl in Hs; rewrite Hc in Hs; discriminate]).
  set (B := own_property fields "receiverId").
  assert (HB : destructure (JObject fields) "receiverId" = Normal B) by reflexivity.
  assert (HC : destructure (JObject fields) "content" = Normal (JString s))
    by (simpl; now rewrite Hc).
  destruct (trim s) as [|c cs] eqn:Ht; simpl.
  { eapply invalid_payload; [ | | js_world]; [js_nonempty|].
    intros B' s' _ Hs. rewrite HC in Hs. injection Hs as <-. exact Ht. }
  assert (Hne : trim s <> []) by (rewrite Ht; discriminate).
  rewrite <- Ht. 
  destruct f1 as [m1|]; simpl.
  { eapply gate_closed with (B := B) (s := s);
      [exact HB | exact HC | exact Hne | | | js_world];
      [js_nonempty | left; discriminate]. }
  destruct (find _ (friendRequests (db w))) as [r|] eqn:Hfind; simpl.
  2:{ eapply gate_closed with (B := B) (s := s);
        [exact HB | exact HC | exact Hne | | | js_world];
        [js_nonempty | right; eapply find_friend_not_accepted, Hfind]. }
  apply find_friend_accepted in Hfind.
  destruct f2 as [m2|]; simpl.
  { eapply message_not_stored with (B := B) (s := s);
      [exact HB | exact HC | exact Hne | | reflexivity | exact Hfind
      | discriminate | js_world]; js_nonempty. }
  destruct f3 as [m3|]; simpl.
  { eapply notification_not_stored with (B := B) (s := s);
      [exact HB | exact HC | exact Hne | | reflexivity | exact Hfind
      | reflexivity | discriminate | js_world]; js_nonempty. }
  eapply sent with (B := B) (s := s);
    [exact HB | exact HC | exact Hne | reflexivity | exact Hfind
    | reflexivity | reflexivity |].
  unfold delivery, registry_entry.
  destruct B as [| |b|z|k|o]; simpl; try js_world.
  destruct (map_get (userSockets w) k) as [[|h hs]|]; simpl; js_world.
Qed.

(** *** What [trim] leaves *)

Lemma trimStart_hd (s : jsstring) (c : codeunit) (cs : jsstring) :
  trimStart s = c :: cs -> is_white_space c = false.
Proof.
  induction s as [|x s IH]; simpl; [discriminate|].
  destruct (is_white_space x) eqn:Hx; [exact IH|].
  intros [= <- _]. exact Hx.
Qed.

Lemma trimEnd_prefix (t : jsstring) : exists p, t = trimEnd t ++ p.
Proof.
  unfold trimEnd. destruct (trimStart_suffix (rev t)) as [p [E _]].
  exists (rev p). rewrite <- rev_app_distr, <- E. symmetry. apply rev_involutive.
Qed.

Lemma trim_trimmed (s : jsstring) : trim s <> [] -> trimmed (trim s).
Proof.
  intros Hne. split; [exact Hne|]. split.
  - unfold trim in *. destruct (trimEnd_prefix (trimStart s)) as [p E].
    destruct (trimEnd (trimStart s)) as [|c cs]; [contradiction|].
    simpl. rewrite <- app_comm_cons in E. now apply trimStart_hd in E.
  - unfold trim, trimEnd in *.
    destruct (trimStart (rev (trimStart s))) as [|c cs] eqn:E; [contradiction|].
    simpl. rewrite last_last. now apply trimStart_hd in E.
Qed.

Lemma trimStart_id (t : jsstring) :
  is_white_space (hd 0%N t) = false -> trimStart t = t.
Proof.
  destruct t as [|c cs]; simpl; [reflexivity|]. now intros ->.
Qed.

(** Trimming a trimmed text changes nothing. *)
Lemma trimmed_fixed (t : jsstring) : trimmed t -> trim t = t.
Proof.
  intros [Hne [Hh Hl]]. unfold trim, trimEnd. rewrite (trimStart_id _ Hh).
  rewrite trimStart_id; [apply rev_involutive|].
  destruct (exists_last Hne) as [l [a ->]].
  rewrite last_last in Hl. rewrite rev_app_distr. exact Hl.
Qed.

Ltac js_added := rewrite <- ?app_assoc; rewrite ?added_app; simpl.

(** X1: whatever the payload and whatever the store does, the handler
    completes without an escaping exception and answers the sender exactly
    once, as its last effect: with the confirmation, or with a
    [messageError] whose text is never empty. *)
Theorem sendMessage_replies_once
    (socket : Socket) (f : faults) (data : jsval) (w : world) :
  fst (on_sendMessage socket f data w) = Normal tt
  /\ exists pre reply,
       added w (exec (on_sendMessage socket f data) w) = pre ++ [reply]
       /\ filter on_socket pre = []
       /\ is_reply socket reply.
Proof.
  split.
  { destruct (on_sendMessage_frame socket f data w) as [d [l E]]. now rewrite E. }
  destruct (on_sendMessage_outcome socket f data w)
    as [msg Hm _ E|B s msg _ _ _ Hm _ E|B s msg _ _ _ Hm _ _ _ E
       |B s msg _ _ _ Hm _ _ _ _ E|B s _ _ _ _ _ _ _ E];
    rewrite E; js_added.
  - exists [], (error_reply socket msg). repeat split. right. eauto.
  - eexists [_], (error_reply socket msg). repeat split. right. eauto.
  - eexists [_; _], (error_reply socket msg). repeat split. right. eauto.
  - eexists [_; _; _], (error_reply socket msg). repeat split. right. eauto.
  - eexists (_ :: _ :: _ :: delivery w B _ _), (confirmation socket _).
    split; [reflexivity|]. split; [|left; eauto].
    simpl. unfold delivery. now destruct (registry_entry w B) as [[|h hs]|].
Qed.

(** X2: a message is stored only through the gate: either the message
    collection is as before, or the payload carried a string content with
    something left after trimming, an accepted friendship record between
    the connection's user and the receiver exists, and exactly the message
    from that user with the trimmed content was appended. *)
Theorem message_stored_only_through_gate
    (socket : Socket) (f : faults) (data : jsval) (w : world) :
  let w' := exec (on_sendMessage socket f data) w in
  messages (db w') = messages (db w)
  \/ exists B s,
       destructure data "receiverId" = Normal B
       /\ destructure data "content" = Normal (JString s)
       /\ trim s <> []
       /\ isAccepted (db w) (User.clerkId (user socket)) B
       /\ messages (db w') = messages (db w) ++ [new_message socket B (trim s) w].
Proof.
  intros w'. subst w'.
  destruct (on_sendMessage_outcome socket f data w)
    as [msg _ _ E|B s msg _ _ _ _ _ E|B s msg _ _ _ _ _ _ _ E
       |B s msg HB HC Hne _ _ Hacc _ _ E|B s HB HC Hne _ Hacc _ _ E];
    rewrite E; simpl; try (now left);
    right; exists B, s; repeat split; assumption.
Qed.

(** X3: every message the handler adds to the store has a content that is
    not empty and neither starts nor ends with white space; older messages
    are left in place. *)
Theorem stored_content_is_trimmed
    (socket : Socket) (f : faults) (data : jsval) (w : world) :
  let w' := exec (on_sendMessage socket f data) w in
  exists l,
    messages (db w') = messages (db w) ++ l
    /\ Forall (fun m => trimmed (Message.content m)
                        /\ trim (Message.content m) = Message.content m) l.
Proof.
  intros w'. subst w'.
  destruct (on_sendMessage_outcome socket f data w)
    as [msg _ _ E|B s msg _ _ _ _ _ E|B s msg _ _ _ _ _ _ _ E
       |B s msg HB HC Hne _ _ Hacc _ _ E|B s HB HC Hne _ Hacc _ _ E];
    rewrite E; simpl;
    try (exists []; split; [now rewrite app_nil_r | constructor]);
    (eexists [_]; split; [reflexivity|]; constructor; [|constructor]; simpl;
     split; [now apply trim_trimmed | now apply trimmed_fixed, trim_trimmed]).
Qed.

(** X4: a notification is stored only together with a message, and it
    points at it: either the notification collection is as before, or one
    message and one notification were appended, the notification addressed
    to the message's receiver, of type "message", carrying the message's
    id. *)
Theorem notification_matches_message
    (socket : Socket) (f : faults) (data : jsval) (w : world) :
  let w' := exec (on_sendMessage socket f data) w in
  notifications (db w') = notifications (db w)
  \/ exists m n,
       messages (db w') = messages (db w) ++ [m]
       /\ notifications (db w') = notifications (db w) ++ [n]
       /\ Notification.messageId n = Message._id m
       /\ Notification.userId n = Message.receiverId m
       /\ Notification.type n = lit "message".
Proof.
  intros w'. subst w'.
  destruct (on_sendMessage_outcome socket f data w)
    as [msg _ _ E|B s msg _ _ _ _ _ E|B s msg _ _ _ _ _ _ _ E
       |B s msg HB HC Hne _ _ Hacc _ _ E|B s HB HC Hne _ Hacc _ _ E];
    rewrite E; simpl; try (now left).
  right. do 2 eexists. repeat split.
Qed.



(** X6: the gate fails closed.  When the friendship query faults on a
    payload with valid content, nothing is stored and the only event is the
    [messageError] carrying the store's error text (or "Failed to send
    message" when that text is empty), also when an accepted friendship
    record exists. *)
Theorem friendship_lookup_fault_fails_closed
    (socket : Socket) (f : faults) (data : jsval) (s msg : jsstring) (w : world) :
  destructure data "content" = Normal (JString s) ->
  trim s <> [] ->
  friendRequest_fault f = Some msg ->
  let w' := exec (on_sendMessage socket f data) w in
  db w' = db w
  /\ emitted w w' = [error_reply socket (or_else msg (lit "Failed to send message"))].
Proof.
  intros Hc Ht Hf w'. subst w'. unfold exec.
  destruct f as [f1 f2 f3]. simpl in Hf. subst f1.
  destruct data; simpl in Hc; try discriminate. injection Hc as Hc.
  js_unfold. rewrite Hc. simpl.
  destruct (trim s) as [|c cs]; [contradiction|]. simpl.
  js_trace. split; reflexivity.
Qed.

Lemma friendship_lookup_fault_fails_closed_witness :
  let w' := exec (on_sendMessage ScenarioSend.a1 (Faults (Some []) None None)
                    ScenarioSend.hi_bob) Scenario.both_online in
  db w' = db Scenario.both_online
  /\ emitted Scenario.both_online w'
     = [SocketEmit (lit "a1") "messageError"
          (MessageError (lit "Failed to send message"))].
Proof.
  apply (@friendship_lookup_fault_fails_closed ScenarioSend.a1
           (Faults (Some []) None None) ScenarioSend.hi_bob (lit " hi ") []
           Scenario.both_online).
  - reflexivity.
  - vm_compute. discriminate.
  - reflexivity.
Defined.

(** X7: when [Message.create] faults, nothing is stored, no notification
    is attempted ([Notification.create] is never called), and the only
    event is the [messageError] on the sender's socket. *)
Theorem message_fault_persists_nothing
    (socket : Socket) (f : faults) (data : jsval) (B : jsval) (s msg : jsstring)
    (w : world) :
  destructure data "receiverId" = Normal B ->
  destructure data "content" = Normal (JString s) ->
  trim s <> [] ->
  isAccepted (db w) (User.clerkId (user socket)) B ->
  friendRequest_fault f = None ->
  message_fault f = Some msg ->
  let w' := exec (on_sendMessage socket f data) w in
  db w' = db w
  /\ db_calls w w' =
       [Db (CallFriendRequestFindOne (User.clerkId (user socket)) B);
        Db (CallMessageCreate (User.clerkId (user socket)) B (trim s))]
  /\ emitted w w' = [error_reply socket (or_else msg (lit "Failed to send message"))].
Proof.
  intros HB Hc Ht Hacc Hf1 Hf2 w'. subst w'. unfold exec.
  destruct (findOne_some Hacc) as [r Hfind].
  destruct f as [f1 f2 f3]. simpl in Hf1, Hf2. subst f1 f2.
  js_unfold. rewrite HB. simpl. rewrite Hc. simpl.
  destruct (trim s) as [|c cs]; [contradiction|]. simpl.
  rewrite Hfind. simpl. js_trace. repeat split.
Qed.

Lemma message_fault_persists_nothing_witness :
  let w' := exec (on_sendMessage ScenarioSend.a1
                    (Faults None (Some (lit "validation failed")) None)
                    ScenarioSend.hi_bob) Scenario.both_online in
  db w' = db Scenario.both_online
  /\ db_calls Scenario.both_online w' =
       [Db (CallFriendRequestFindOne (lit "user_A") (JString (lit "user_B")));
        Db (CallMessageCreate (lit "user_A") (JString (lit "user_B")) (lit "hi"))]
  /\ emitted Scenario.both_online w'
     = [SocketEmit (lit "a1") "messageError" (MessageError (lit "validation failed"))].
Proof.
  apply (@message_fault_persists_nothing ScenarioSend.a1
           (Faults None (Some (lit "validation failed")) None) ScenarioSend.hi_bob
           (JString (lit "user_B")) (lit " hi ") (lit "validation failed")
           Scenario.both_online).
  - reflexivity.
  - reflexivity.
  - vm_compute. discriminate.
  - apply alice_bob_accepted. reflexivity.
  - reflexivity.
  - reflexivity.
Defined.

(** X8: a payload without a string content (the payload itself
    [undefined] or [null], or a content that is a number, a boolean or an
    object) is answered with one [messageError] and nothing else: no
    database call is issued and the world is otherwise untouched. *)
Theorem payload_without_text_rejected
    (socket : Socket) (f : faults) (data : jsval) (w : world) :
  (forall s, destructure data "content" <> Normal (JString s)) ->
  exists msg,
    msg <> []
    /\ on_sendMessage socket f data w =
       (Normal tt,
        World (userSockets w) (listening w) (db w)
          (trace w ++ [error_reply socket msg])).
Proof.
  intros Hno.
  pose proof (on_sendMessage_outcome socket f data w) as Ho.
  destruct (on_sendMessage_frame socket f data w) as [d [l E]].
  unfold exec in Ho. rewrite E in *. simpl in Ho.
  destruct Ho as [msg Hm _ Ew|B s msg _ HC|B s msg _ HC|B s msg _ HC|B s _ HC];
    try (now apply Hno in HC).
  exists msg. split; [exact Hm|]. now rewrite Ew.
Qed.

Lemma payload_without_text_rejected_witness :
  exists msg,
    msg <> []
    /\ on_sendMessage ScenarioSend.a1 no_faults JNull Scenario.both_online =
       (Normal tt,
        World (userSockets Scenario.both_online) (listening Scenario.both_online)
          (db Scenario.both_online)
          (trace Scenario.both_online ++ [error_reply ScenarioSend.a1 msg])).
Proof.
  apply (@payload_without_text_rejected ScenarioSend.a1 no_faults JNull
           Scenario.both_online).
  intros s. simpl. discriminate.
Defined.

(** X9: the friendship query does not depend on who asks: for two
    identities it accepts the same records, and finds the same record,
    whichever of the two is the sender.  A may write to B exactly when B may
    write to A. *)
Theorem friendship_query_symmetric (d : database) (A B : jsstring) :
  (forall r, friendship_filter A (JString B) r = friendship_filter B (JString A) r)
  /\ find (friendship_filter A (JString B)) (friendRequests d)
     = find (friendship_filter B (JString A)) (friendRequests d)
  /\ (isAccepted d A (JString B) <-> isAccepted d B (JString A)).
Proof.
  assert (Hsym : forall r,
            friendship_filter A (JString B) r = friendship_filter B (JString A) r).
  { intros r. unfold friendship_filter. simpl. f_equal. apply orb_comm. }
  split; [exact Hsym|]. split.
  - induction (friendRequests d) as [|r l IH]; simpl; [reflexivity|].
    now rewrite Hsym, IH.
  - unfold isAccepted. split; intros [r [Hin Hr]]; exists r; (split; [exact Hin|]);
      apply friendship_filter_spec; apply friendship_filter_spec in Hr;
      congruence.
Qed.

(** X10: what [sendMessage] never does: it leaves the registry, the
    installed handlers, the user records and the friendship records as they
    are, removes no message and no notification (each collection grows by
    at most one), and broadcasts nothing with [io.emit]. *)
Theorem sendMessage_touches_only_its_collections
    (socket : Socket) (f : faults) (data : jsval) (w : world) :
  let w' := exec (on_sendMessage socket f data) w in
  userSockets w' = userSockets w
  /\ listening w' = listening w
  /\ users (db w') = users (db w)
  /\ friendRequests (db w') = friendRequests (db w)
  /\ (exists l, messages (db w') = messages (db w) ++ l /\ List.length l <= 1)
  /\ (exists l, notifications (db w') = notifications (db w) ++ l /\ List.length l <= 1)
  /\ (forall ev p, ~ In (IoEmit ev p) (added w w')).
Proof.
  intros w'. subst w'.
  destruct (on_sendMessage_outcome socket f data w)
    as [msg _ _ E|B s msg _ _ _ _ _ E|B s msg _ _ _ _ _ _ _ E
       |B s msg HB HC Hne _ _ Hacc _ _ E|B s HB HC Hne _ Hacc _ _ E];
    rewrite E; js_added;
    (split; [reflexivity|]); (split; [reflexivity|]);
    (split; [reflexivity|]); (split; [reflexivity|]);
    (split; [first [ exists []; split; [now rewrite app_nil_r | simpl; lia]
                   | eexists [_]; split; [reflexivity | simpl; lia] ]|]);
    (split; [first [ exists []; split; [now rewrite app_nil_r | simpl; lia]
                   | eexists [_]; split; [reflexivity | simpl; lia] ]|]);
    intros ev p Hin; unfold error_reply, confirmation in Hin; simpl in Hin;
    try (intuition discriminate).
  destruct Hin as [F|[F|[F|Hin]]]; try discriminate.
  apply in_app_or in Hin as [Hin|[F|[]]]; [|discriminate].
  unfold delivery in Hin.
  destruct (registry_entry w B) as [[|h hs]|]; simpl in Hin; intuition discriminate.
Qed.

(** ** More on the authentication gate and the registry *)

Lemma User_find_some (d : database) (k : jsstring) :
  (exists u, In u (users d) /\ User.clerkId u = k) ->
  exists u, find (fun u => field_is (User.clerkId u) (JString k)) (users d) = Some u
            /\ User.clerkId u = k.
Proof.
  intros [u [Hin Hk]].
  destruct (find _ (users d)) as [u'|] eqn:E.
  - exists u'. split; [reflexivity|].
    apply find_some in E as [_ E]. simpl in E. now apply str_eqb_eq in E.
  - apply (find_none _ _ E) in Hin. simpl in Hin.
    rewrite Hk, str_eqb_refl in Hin. discriminate.
Qed.

(** X11: a handshake that claims a non-empty identity for which a user
    record exists, with the lookup not faulting, goes through: the registry
    holds the new socket id for exactly the claimed identity, the handlers
    are installed on a socket whose user is the record the lookup resolved
    (the first user record of the store with that identity, display name
    included), and the effects are the lookup, [next()], and one
    "connected" broadcast with the roster after the update. *)
Theorem authenticated_handshake_registers
    (w : world) (socketId k : jsstring) :
  k <> [] ->
  (exists u, In u (users (db w)) /\ User.clerkId u = k) ->
  let w' := step w (Handshake socketId (JString k) None) in
  map_get (userSockets w') k = Some socketId
  /\ (exists u,
        find (fun u => field_is (User.clerkId u) (JString k)) (users (db w)) = Some u
        /\ In u (users (db w))
        /\ User.clerkId u = k
        /\ listening w' = {| id := socketId; user := u |} :: listening w)
  /\ db w' = db w
  /\ added w w' =
       [Db (CallUserFindOne (JString k)); Next None;
        IoEmit "user_status_update"
          (StatusUpdate k "connected" (map_keys (userSockets w')))].
Proof.
  intros Hk Hu w'. subst w'.
  destruct (User_find_some _ Hu) as [u [Hfind Hid]].
  pose proof (find_some _ _ Hfind) as [Hin _].
  unfold step, exec. simpl. js_unfold.
  destruct k as [|c cs]; [contradiction|]. simpl.
  simpl in Hfind. rewrite Hfind. simpl. rewrite Hid. js_added.
  split; [apply map_get_set_same|].
  split; [exists u; repeat split; assumption|].
  split; reflexivity.
Qed.

Lemma authenticated_handshake_registers_witness :
  let w' := step Scenario.alice_online
              (Handshake (lit "c1") (JString (lit "user_C")) None) in
  map_get (userSockets w') (lit "user_C") = Some (lit "c1")
  /\ (exists u,
        find (fun u => field_is (User.clerkId u) (JString (lit "user_C")))
          (users (db Scenario.alice_online)) = Some u
        /\ In u (users (db Scenario.alice_online))
        /\ User.clerkId u = lit "user_C"
        /\ listening w' = {| id := lit "c1"; user := u |}
                          :: listening Scenario.alice_online)
  /\ db w' = db Scenario.alice_online
  /\ added Scenario.alice_online w' =
       [Db (CallUserFindOne (JString (lit "user_C"))); Next None;
        IoEmit "user_status_update"
          (StatusUpdate (lit "user_C") "connected" (map_keys (userSockets w')))].
Proof.
  apply (@authenticated_handshake_registers Scenario.alice_online
           (lit "c1") (lit "user_C")).
  - vm_compute. discriminate.
  - exists Scenario.carol. split; [|reflexivity].
    right. right. left. reflexivity.
Defined.

(** X12: when the user lookup faults, [next] receives an error whose
    message is "Authentication failed: " followed by the store's own error
    text; with an absent (falsy) identity the store is not asked at all. *)
Theorem lookup_fault_message_forwarded
    (w : world) (userId : jsval) (msg : jsstring) :
  let attempt := exec (auth_middleware userId (Some msg)) w in
  (truthy userId = true ->
   added w attempt =
     [Db (CallUserFindOne userId);
      Next (Some (Error (lit "Authentication failed: " ++ msg)))])
  /\ (truthy userId = false ->
      added w attempt =
        [Next (Some (Error (lit "Authentication error: No user ID provided")))]).
Proof.
  intros attempt. subst attempt. unfold exec. js_unfold.
  split; intros Ht; rewrite Ht; simpl; js_added; reflexivity.
Qed.

Lemma lookup_fault_message_forwarded_witness :
  added Scenario.both_online
    (exec (auth_middleware (JString (lit "user_A")) (Some (lit "pool destroyed")))
       Scenario.both_online)
  = [Db (CallUserFindOne (JString (lit "user_A")));
     Next (Some (Error (lit "Authentication failed: pool destroyed")))].
Proof.
  apply (@lookup_fault_message_forwarded Scenario.both_online
           (JString (lit "user_A")) (lit "pool destroyed")).
  reflexivity.
Defined.

Lemma map_delete_absent (V : Type) (m : map V) (k : jsstring) :
  ~ In k (map_keys m) -> map_delete m k = m.
Proof.
  unfold map_keys. induction m as [|[k' v'] m IH]; simpl; intros H; [reflexivity|].
  destruct (str_eqb k' k) eqn:E.
  - apply str_eqb_eq in E. tauto.
  - f_equal. apply IH. tauto.
Qed.

Lemma map_get_delete_other (V : Type) (m : map V) (k k' : jsstring) :
  k' <> k -> map_get (map_delete m k) k' = map_get m k'.
Proof.
  intros N. induction m as [|[k0 v0] m IH]; simpl; [reflexivity|].
  destruct (str_eqb k0 k) eqn:E; simpl.
  - apply str_eqb_eq in E. subst k0.
    assert (F : str_eqb k k' = false) by (apply str_eqb_neq; congruence).
    now rewrite F.
  - now rewrite IH.
Qed.

Lemma map_set_absent (V : Type) (m : map V) (k : jsstring) (v : V) :
  ~ In k (map_keys m) -> map_set m k v = m ++ [(k, v)].
Proof.
  unfold map_keys. induction m as [|[k' v'] m IH]; simpl; intros H; [reflexivity|].
  destruct (str_eqb k' k) eqn:E.
  - apply str_eqb_eq in E. tauto.
  - f_equal. apply IH. tauto.
Qed.

Lemma map_delete_last (V : Type) (m : map V) (k : jsstring) (v : V) :
  ~ In k (map_keys m) -> map_delete (m ++ [(k, v)]) k = m.
Proof.
  unfold map_keys. induction m as [|[k' v'] m IH]; simpl; intros H.
  - now rewrite str_eqb_refl.
  - destruct (str_eqb k' k) eqn:E.
    + apply str_eqb_eq in E. tauto.
    + f_equal. apply IH. tauto.
Qed.

(** X13: the disconnect of a connection whose user has no presence entry
    (a second connection of a user whose first one already disconnected)
    leaves the registry as it is and still broadcasts "disconnected" for
    that user, with the unchanged roster. *)
Theorem disconnect_without_entry (w : world) (socket : Socket) :
  ~ In (User.clerkId (user socket)) (map_keys (userSockets w)) ->
  let w' := exec (on_disconnect socket) w in
  userSockets w' = userSockets w
  /\ added w w' =
       [IoEmit "user_status_update"
          (StatusUpdate (User.clerkId (user socket)) "disconnected"
             (map_keys (userSockets w)))].
Proof.
  intros Hno w'. subst w'. unfold exec. rewrite on_disconnect_eq. simpl.
  rewrite added_app, (map_delete_absent _ _ Hno). split; reflexivity.
Qed.

Lemma disconnect_without_entry_witness :
  let w := run (initial Scenario.d0)
             [Scenario.connect "h1" Scenario.alice; Scenario.connect "h2" Scenario.alice;
              ClientDisconnect (lit "h1")] in
  let w' := exec (on_disconnect {| id := lit "h2"; user := Scenario.alice |}) w in
  userSockets w' = userSockets w
  /\ added w w' =
       [IoEmit "user_status_update"
          (StatusUpdate (lit "user_A") "disconnected" (map_keys (userSockets w)))].
Proof.
  apply (@disconnect_without_entry
           (run (initial Scenario.d0)
              [Scenario.connect "h1" Scenario.alice; Scenario.connect "h2" Scenario.alice;
               ClientDisconnect (lit "h1")])
           {| id := lit "h2"; user := Scenario.alice |}).
  vm_compute. intros [].
Defined.

(** X14: a connect or a disconnect of one user changes no other user's
    presence entry. *)
Theorem other_users_unaffected (w : world) (socket : Socket) (V : jsstring) :
  V <> User.clerkId (user socket) ->
  map_get (userSockets (exec (on_connection socket) w)) V = map_get (userSockets w) V
  /\ map_get (userSockets (exec (on_disconnect socket) w)) V = map_get (userSockets w) V.
Proof.
  intros Hne. unfold exec. rewrite on_connection_eq, on_disconnect_eq. simpl.
  split; [now apply map_get_set_other | now apply map_get_delete_other].
Qed.

Lemma other_users_unaffected_witness :
  map_get (userSockets (exec (on_connection {| id := lit "a2"; user := Scenario.alice |})
                          Scenario.both_online)) (lit "user_B")
  = map_get (userSockets Scenario.both_online) (lit "user_B")
  /\ map_get (userSockets (exec (on_disconnect {| id := lit "a2"; user := Scenario.alice |})
                             Scenario.both_online)) (lit "user_B")
     = map_get (userSockets Scenario.both_online) (lit "user_B").
Proof.
  apply (@other_users_unaffected Scenario.both_online
           {| id := lit "a2"; user := Scenario.alice |} (lit "user_B")).
  vm_compute. discriminate.
Defined.

(** X16: for a user who has no presence entry, connecting and then
    disconnecting gives back the registry as it was, entry order
    included. *)
Theorem connect_disconnect_round_trip (w : world) (socket : Socket) :
  ~ In (User.clerkId (user socket)) (map_keys (userSockets w)) ->
  userSockets (exec (on_disconnect socket) (exec (on_connection socket) w))
  = userSockets w.
Proof.
  intros Hno. unfold exec. rewrite on_disconnect_eq, on_connection_eq. simpl.
  rewrite (map_set_absent _ _ _ Hno). now apply map_delete_last.
Qed.

Lemma connect_disconnect_round_trip_witness :
  userSockets (exec (on_disconnect {| id := lit "c1"; user := Scenario.carol |})
                 (exec (on_connection {| id := lit "c1"; user := Scenario.carol |})
                    Scenario.both_online))
  = userSockets Scenario.both_online.
Proof.
  apply (@connect_disconnect_round_trip Scenario.both_online
           {| id := lit "c1"; user := Scenario.carol |}).
  vm_compute. intros [H|[H|[]]]; discriminate.
Defined.

(** *** Broadcast rosters over a whole run *)

Lemma auth_middleware_trace (userId : jsval) (fault : option jsstring) (w : world) :
  exists r l,
    auth_middleware userId fault w =
    (Normal r, World (userSockets w) (listening w) (db w) (trace w ++ l))
    /\ Forall roster_ok l.
Proof.
  js_unfold. destruct (truthy userId); simpl.
  - destruct fault; simpl.
    + do 2 eexists. split; [js_world | repeat constructor].
    + destruct (find _ (users (db w))); simpl;
        (do 2 eexists; split; [js_world | repeat constructor]).
  - do 2 eexists. split; [reflexivity | repeat constructor].
Qed.

Lemma on_sendMessage_trace (socket : Socket) (f : faults) (data : jsval) (w : world) :
  exists l,
    trace (exec (on_sendMessage socket f data) w) = trace w ++ l
    /\ Forall roster_ok l.
Proof.
  destruct (on_sendMessage_outcome socket f data w)
    as [msg _ _ E|B s msg _ _ _ _ _ E|B s msg _ _ _ _ _ _ _ E
       |B s msg _ _ _ _ _ _ _ _ E|B s _ _ _ _ _ _ _ E];
    rewrite E; simpl; eexists; (split; [reflexivity|]);
    repeat constructor.
  unfold delivery. destruct (registry_entry w B) as [[|h hs]|]; repeat constructor.
Qed.

Lemma step_trace (w : world) (ev : event) :
  registry_ok (userSockets w) ->
  exists l, trace (step w ev) = trace w ++ l /\ Forall roster_ok l.
Proof.
  intros [Hn _]. unfold step, exec.
  destruct ev as [sid uid fault|sid data f|sid|d]; simpl.
  - unfold bind.
    destruct (auth_middleware_trace uid fault w) as [r [l [E Hl]]]. rewrite E.
    destruct r as [u|]; simpl; [|now exists l].
    eexists. split; [js_world|].
    apply Forall_app. split; [exact Hl|].
    repeat constructor. simpl. now apply map_set_NoDup.
  - unfold bind, get_world. destruct (socket_of w sid) as [s|]; simpl.
    + apply on_sendMessage_trace.
    + exists []. split; [now rewrite app_nil_r | constructor].
  - unfold bind, get_world. destruct (socket_of w sid) as [s|]; simpl.
    + eexists. split; [reflexivity|].
      repeat constructor. simpl. now apply map_delete_NoDup.
    + exists []. split; [now rewrite app_nil_r | constructor].
  - exists []. split; [now rewrite app_nil_r | constructor].
Qed.

(** X15: over any run of the server, no [user_status_update] ever
    broadcast lists an identity twice, however often users reconnect. *)
Theorem rosters_never_repeat (w : world) :
  reachable w -> Forall roster_ok (trace w).
Proof.
  induction 1 as [d|w ev Hr IH Hwf].
  - constructor.
  - destruct (@step_trace w ev (reachable_registry_ok Hr)) as [l [E Hl]].
    rewrite E. apply Forall_app. now split.
Qed.

Lemma rosters_never_repeat_witness :
  Forall roster_ok
    (trace (run (initial Scenario.d0)
              [Scenario.connect "h1" Scenario.alice;
               Scenario.connect "h2" Scenario.alice;
               Scenario.connect "b1" Scenario.bob])).
Proof.
  apply (@rosters_never_repeat
           (run (initial Scenario.d0)
              [Scenario.connect "h1" Scenario.alice;
               Scenario.connect "h2" Scenario.alice;
               Scenario.connect "b1" Scenario.bob])).
  apply reachable_run; [constructor|].
  repeat constructor; discriminate.
Defined.

(** ** Environment settings *)

(** X17: the production settings go together and are switched on by the
    exact value "production" only: the cookie is secure, its sameSite
    policy is "strict" and every origin is allowed exactly when NODE_ENV is
    "production"; with any other value, or with NODE_ENV unset, the cookie
    is not secure, the policy is "lax" and only the two localhost origins
    are allowed.  The cookie is httpOnly in both. *)
Theorem production_settings_go_together (NODE_ENV : option jsstring) :
  (Config.secure (Config.cookie NODE_ENV) = true <-> NODE_ENV = Some (lit "production"))
  /\ (Config.sameSite (Config.cookie NODE_ENV) = lit "strict"
      <-> NODE_ENV = Some (lit "production"))
  /\ (Config.ALLOWED_ORIGINS NODE_ENV = Config.AnyOrigin
      <-> NODE_ENV = Some (lit "production"))
  /\ (NODE_ENV <> Some (lit "production") ->
      Config.cookie NODE_ENV = Config.Cookie (lit "io") (lit "/") true (lit "lax") false
      /\ Config.ALLOWED_ORIGINS NODE_ENV
         = Config.Origins [lit "http://localhost:3000"; lit "http://localhost:5173"])
  /\ Config.httpOnly (Config.cookie NODE_ENV) = true.
Proof.
  unfold Config.cookie, Config.ALLOWED_ORIGINS, Config.isDevelopment.
  destruct NODE_ENV as [v|]; simpl.
  - destruct (str_eqb v (lit "production")) eqn:E; simpl.
    + apply str_eqb_eq in E. subst v.
      repeat split; intros; repeat split;
        try reflexivity; try discriminate; congruence.
    + apply str_eqb_neq in E.
      repeat split; intros; repeat split;
        try reflexivity; try discriminate; congruence.
  - repeat split; intros; repeat split; try reflexivity; discriminate.
Qed.

Lemma production_settings_go_together_witness :
  Config.cookie None = Config.Cookie (lit "io") (lit "/") true (lit "lax") false
  /\ Config.ALLOWED_ORIGINS None
     = Config.Origins [lit "http://localhost:3000"; lit "http://localhost:5173"].
Proof.
  apply (@production_settings_go_together None). discriminate.
Defined.

(** ** The mood endpoint *)

Lemma includes_spec (l : list jsstring) (v : jsval) :
  SongController.includes l v = true <-> exists m, In m l /\ v = JString m.
Proof.
  unfold SongController.includes. split.
  - destruct v; try discriminate. intros H.
    apply existsb_exists in H as [x [Hin Hx]]. apply str_eqb_eq in Hx.
    exists x. split; [exact Hin | congruence].
  - intros [m [Hin ->]]. apply existsb_exists. exists m.
    split; [exact Hin | apply str_eqb_refl].
Qed.

(** X18: a mood that is not one of "happy", "sad", "romantic", "party"
    (a missing parameter, another spelling or case) is answered with status
    400 and "Invalid mood", and the mood service is not called. *)
Theorem invalid_mood_rejected
    (Song : Type) (service : jsval -> completion (list Song))
    (params : list (string * jsval)) :
  (forall m, In m SongController.moods -> own_property params "mood" <> JString m) ->
  SongController.getMoodSongs service params
  = [SongController.Respond 400 (SongController.MessageBody Song (lit "Invalid mood"))].
Proof.
  intros Hno. unfold SongController.getMoodSongs.
  destruct (SongController.includes _ _) eqn:E; [|reflexivity].
  apply includes_spec in E as [m [Hin Hm]]. now apply Hno in Hin.
Qed.

Lemma invalid_mood_rejected_witness :
  SongController.getMoodSongs (fun _ => Normal [1; 2; 3])
    [("mood"%string, JString (lit "Happy"))]
  = [SongController.Respond 400 (SongController.MessageBody nat (lit "Invalid mood"))].
Proof.
  apply (@invalid_mood_rejected nat (fun _ => Normal [1; 2; 3])
           [("mood"%string, JString (lit "Happy"))]).
  intros m Hin. vm_compute in Hin.
  destruct Hin as [<-|[<-|[<-|[<-|[]]]]]; vm_compute; discriminate.
Defined.

(** X19: for one of the four moods the service is called with exactly that
    mood; its songs are sent back unchanged with status 200, and when it
    throws the answer is status 500 with the fixed text "Failed to fetch
    mood-based songs", whatever the error was. *)
Theorem valid_mood_served
    (Song : Type) (service : jsval -> completion (list Song))
    (params : list (string * jsval)) (m : jsstring) :
  In m SongController.moods ->
  own_property params "mood" = JString m ->
  (forall songs, service (JString m) = Normal songs ->
     SongController.getMoodSongs service params
     = [SongController.ServiceCall Song (JString m);
        SongController.Respond 200 (SongController.SongsBody songs)])
  /\ (forall e, service (JString m) = Throw e ->
        SongController.getMoodSongs service params
        = [SongController.ServiceCall Song (JString m);
           SongController.ConsoleError Song;
           SongController.Respond 500
             (SongController.MessageBody Song (lit "Failed to fetch mood-based songs"))]).
Proof.
  intros Hin Hm. unfold SongController.getMoodSongs. rewrite Hm.
  assert (E : SongController.includes SongController.moods (JString m) = true)
    by (apply includes_spec; eauto).
  rewrite E. simpl. split; intros x Hx; now rewrite Hx.
Qed.

Lemma valid_mood_served_witness :
  SongController.getMoodSongs
    (fun _ => Throw (Error (lit "connection refused")) : completion (list nat))
    [("mood"%string, JString (lit "sad"))]
  = [SongController.ServiceCall nat (JString (lit "sad"));
     SongController.ConsoleError nat;
     SongController.Respond 500
       (SongController.MessageBody nat (lit "Failed to fetch mood-based songs"))].
Proof.
  apply (proj2 (@valid_mood_served nat
                  (fun _ => Throw (Error (lit "connection refused")))
                  [("mood"%string, JString (lit "sad"))] (lit "sad")
                  (or_intror (or_introl eq_refl)) eq_refl)
           (Error (lit "connection refused"))).
  reflexivity.
Defined.

(** X20: every request to the mood endpoint gets exactly one response,
    with status 200, 400 or 500, and the mood service is only ever called
    with one of the four moods. *)
Theorem mood_endpoint_answers_once
    (Song : Type) (service : jsval -> completion (list Song))
    (params : list (string * jsval)) :
  let effects := SongController.getMoodSongs service params in
  (exists status b,
     filter (@SongController.is_response Song) effects = [SongController.Respond status b]
     /\ In status [200; 400; 500]%N)
  /\ (forall v, In (SongController.ServiceCall Song v) effects ->
        exists m, In m SongController.moods /\ v = JString m).
Proof.
  intros effects. subst effects. unfold SongController.getMoodSongs.
  destruct (SongController.includes _ _) eqn:E; simpl.
  - apply includes_spec in E.
    destruct (service (own_property params "mood")) as [songs|e]; simpl; split;
      try (do 2 eexists; split; [reflexivity | simpl; tauto]);
      intros v [[= <-]|Hin]; try exact E; simpl in Hin; intuition discriminate.
  - split; [do 2 eexists; split; [reflexivity | simpl; tauto]|].
    intros v [F|[]]. discriminate.
Qed.
